(** * imp.py: importing existing VPCs into Terraform

    A shallow embedding of [src/imp.py] and the properties of its
    variable-file merge, its discovery step and its driver.

    Python values are modelled as follows.
    - [str] is [string]; a character is a code point below 256.
    - [dict] is an association list in insertion order whose keys are
      pairwise distinct ([Dict.wf]); [d[k] = v] is [Dict.set].
    - the file system is a finite map from paths to contents; writes
      succeed.
    - everything the script does to the outside (prints, file writes,
      API calls, subprocesses) is appended to a chronological trace.
    - boto3, hcl2 and the terraform executable are fields of a [World]
      record: the script is a function of them.

    Two things are left outside the model.
    - The blocks that [hcl2.loads] returns are taken to have the shapes
      the script itself writes (a list of strings, a dict of complete
      records).  A file that decodes to values of another shape, on which
      the source raises [TypeError] or [KeyError] while updating the
      variable file, has no counterpart here.
    - The files that the terraform executable writes by itself (its
      working directory, lock file and state) are not represented:
      [files] holds what the script reads and writes. *)

From stdpp Require Import base option list strings gmap.
From Stdlib Require Import ZArith Ascii String Permutation.

#[local] Set Warnings "-clear-no-such-hyp".

Open Scope Z_scope.

(** ** Characters and text *)

Definition dq : string := String "034"%char EmptyString.
Definition nl : string := String "010"%char EmptyString.

(** [sep.join(parts)] *)
Fixpoint join (sep : string) (parts : list string) : string :=
  match parts with
  | [] => EmptyString
  | [p] => p
  | p :: rest => p +:+ sep +:+ join sep rest
  end.

(** [str(b).lower()] for a Python [bool]. *)
Definition str_lower_bool (b : bool) : string :=
  if b then "true"%string else "false"%string.

(** ** Python dictionaries *)

Module Dict.

Section Defs.
Context {V : Type}.

Definition t := list (string * V).

Definition keys (d : list (string * V)) : list string := d.*1.

Fixpoint get (d : list (string * V)) (k : string) : option V :=
  match d with
  | [] => None
  | (k', v) :: rest => if decide (k' = k) then Some v else get rest k
  end.

(** [d[k] = v]: an existing key keeps its position, a new key goes last. *)
Fixpoint set (d : list (string * V)) (k : string) (v : V) : list (string * V) :=
  match d with
  | [] => [(k, v)]
  | (k', v') :: rest =>
      if decide (k' = k) then (k', v) :: rest else (k', v') :: set rest k v
  end.

Definition wf (d : list (string * V)) : Prop := NoDup (keys d).

(** [{key(x): val(x) for x in xs}] and [dict.update] alike. *)
Definition update (d : list (string * V)) (kvs : list (string * V)) :=
  foldl (fun acc kv => set acc kv.1 kv.2) d kvs.
End Defs.

Arguments t : clear implicits.

End Dict.

Abbreviation dict := Dict.t.

(** ** Records of the data model *)

(** One entry of [imported_vpc_configs]: the dict literal built at
    imp.py:138. *)
Record vpc_config := VpcConfig {
  cidr_block : string;
  enable_dns_support : bool;
  enable_dns_hostnames : bool;
  tags : dict string
}.

(** The tuple stored per id by [fetch_vpc_details] (imp.py:25):
    [(cidr_block, tags, enable_dns_support, enable_dns_hostnames)]. *)
Definition vpc_detail : Type := string * dict string * bool * bool.

(** What [hcl2.loads] hands back for a variable file: the three top-level
    names the script writes, each possibly absent.  The blocks are taken
    to have the shapes the script itself writes. *)
Record parsed := Parsed {
  p_aws_region : option string;
  p_existing_vpc_ids : option (list string);
  p_imported_vpc_configs : option (dict vpc_config)
}.

(** The pair returned by [read_existing_tfvars]:
    [(existing_configs, existing_vpc_ids)]. *)
Definition store : Type := dict vpc_config * list string.

Definition empty_store : store := ([], []).

(** ** The outside world *)

Inductive exn :=
| Exception (msg : string)       (* [raise Exception(msg)] in imp.py *)
| LibraryError (msg : string).   (* raised by boto3, hcl2 or subprocess *)

Definition str_exn (e : exn) : string :=
  match e with Exception m | LibraryError m => m end.

Inductive result (A : Type) :=
| Ok (a : A)
| Raise (e : exn).
Arguments Ok {A} a.
Arguments Raise {A} e.

Inductive Attribute := enableDnsSupport | enableDnsHostnames.

(** One element of [response['Vpcs']]. *)
Record Vpc := {
  VpcId : string;
  CidrBlock : string;
  Tags : option (list (string * string))   (* [{'Key': k, 'Value': v}] *)
}.

(** [subprocess.CompletedProcess] *)
Record completed := Completed {
  returncode : Z;
  stdout : string;
  stderr : string
}.

Inductive event :=
| Print (line : string)
| Makedirs (path : string)
| WriteFile (path content : string)
| ReadFile (path : string)
| Chdir (path : string)
| DescribeVpcs (region : string) (ids : list string)
| DescribeVpcAttribute (region vpc_id : string) (a : Attribute)
| Run (cmd : list string).

Record World := {
  (** [ec2_client.describe_vpcs(VpcIds=ids)['Vpcs']] *)
  describe_vpcs : string -> list string -> result (list Vpc);
  (** [ec2_client.describe_vpc_attribute(VpcId=id, Attribute=a)[..]['Value']] *)
  describe_vpc_attribute : string -> string -> Attribute -> result bool;
  (** the order in which Python iterates a [set] with these elements *)
  set_iter : list string -> list string;
  (** [hcl2.loads] *)
  hcl2_loads : string -> result parsed;
  (** [subprocess.run(cmd, ...)], given everything that happened before *)
  subprocess_run : list event -> list string -> result completed;
  (** [str] of the [CalledProcessError] for a command and its exit code *)
  called_process_error : list string -> Z -> string
}.


(** ** The script's effects: state and exceptions *)

Record state := State {
  files : gmap string string;
  trace : list event
}.

Definition M (A : Type) : Type := state -> result A * state.

#[global] Instance M_ret : MRet M := fun A a s => (Ok a, s).
#[global] Instance M_bind : MBind M := fun A B f m s =>
  match m s with
  | (Ok a, s') => f a s'
  | (Raise e, s') => (Raise e, s')
  end.

Definition raise {A} (e : exn) : M A := fun s => (Raise e, s).

(** [try: body except Exception as e: handler(e)] *)
Definition try_except {A} (body : M A) (handler : exn -> M A) : M A :=
  fun s =>
    match body s with
    | (Ok a, s') => (Ok a, s')
    | (Raise e, s') => handler e s'
    end.

Definition emit (e : event) : M unit :=
  fun s => (Ok tt, State (files s) (trace s ++ [e])).

Definition print (line : string) : M unit := emit (Print line).

Definition lift_result {A} (r : result A) : M A := fun s => (r, s).

Definition get_trace : M (list event) := fun s => (Ok (trace s), s).

(** [os.path.exists(path)] *)
Definition path_exists (path : string) : M bool :=
  fun s => (Ok (bool_decide (is_Some (files s !! path))), s).

(** [open(path, 'r').read()] *)
Definition read_file (path : string) : M string :=
  fun s =>
    match files s !! path with
    | Some content => (Ok content, State (files s) (trace s ++ [ReadFile path]))
    | None => (Raise (LibraryError ("No such file: " +:+ path)), s)
    end.

(** [open(path, 'w').write(content)] *)
Definition write_file (path content : string) : M unit :=
  fun s => (Ok tt, State (<[path := content]> (files s))
                         (trace s ++ [WriteFile path content])).

(** [for x in xs: acc = body(acc, x)] *)
Fixpoint for_each {A B} (body : B -> A -> M B) (acc : B) (xs : list A) : M B :=
  match xs with
  | [] => mret acc
  | x :: rest => acc' ← body acc x; for_each body acc' rest
  end.

(** [s.startswith('/')] and [s.endswith('/')] *)
Definition starts_with_slash (s : string) : bool :=
  match s with
  | String c _ => bool_decide (c = "/"%char)
  | EmptyString => false
  end.

Fixpoint ends_with_slash (s : string) : bool :=
  match s with
  | EmptyString => false
  | String c EmptyString => bool_decide (c = "/"%char)
  | String _ rest => ends_with_slash rest
  end.

(** [os.path.join(a, b)] of [posixpath]: an absolute [b] replaces [a];
    no separator is added after an empty [a] or one that ends with a
    slash. *)
Definition path_join (a b : string) : string :=
  if starts_with_slash b then b
  else if bool_decide (a = EmptyString) || ends_with_slash a then a +:+ b
  else a +:+ "/" +:+ b.

(** ** [json.dumps] of a list of strings *)

Definition bs : string := String "092"%char EmptyString.

Definition hex_digit (n : N) : ascii :=
  default "0"%char (list_ascii_of_string "0123456789abcdef" !! N.to_nat n).

(** [json.dumps] with its default [ensure_ascii=True]: the quote and the
    backslash are escaped, the usual control characters get their short
    form, everything else outside [' '..'~'] becomes a [\u] escape. *)
Definition json_escape_char (c : ascii) : string :=
  let n := N_of_ascii c in
  if (n =? 34)%N then bs +:+ dq
  else if (n =? 92)%N then bs +:+ bs
  else if (n =? 10)%N then bs +:+ "n"
  else if (n =? 13)%N then bs +:+ "r"
  else if (n =? 9)%N then bs +:+ "t"
  else if (n =? 8)%N then bs +:+ "b"
  else if (n =? 12)%N then bs +:+ "f"
  else if ((32 <=? n) && (n <=? 126))%N then String c EmptyString
  else bs +:+ "u00" +:+ String (hex_digit (n / 16)) (String (hex_digit (n mod 16)) EmptyString).

Fixpoint json_escape (s : string) : string :=
  match s with
  | EmptyString => EmptyString
  | String c rest => json_escape_char c +:+ json_escape rest
  end.

Definition json_dumps_str (s : string) : string := dq +:+ json_escape s +:+ dq.

Definition json_dumps (l : list string) : string :=
  "[" +:+ join ", " (json_dumps_str <$> l) +:+ "]".

(** ** Resource discovery: [fetch_vpc_details] (imp.py:7-31) *)

(** [set(vpc_ids) - set(vpc_details.keys())], its elements listed once
    each; the order Python iterates them in is [set_iter]. *)
Definition set_difference (xs ys : list string) : list string :=
  remove_dups (filter (fun x => x ∉ ys) xs).

Definition fetch_one (w : World) (region : string)
    (vpc_details : dict vpc_detail) (vpc : Vpc) : M (dict vpc_detail) :=
  let vpc_id := VpcId vpc in
  let cidr_block := CidrBlock vpc in
  let tags := Dict.update [] (default [] (Tags vpc)) in
  emit (DescribeVpcAttribute region vpc_id enableDnsSupport);;
  enable_dns_support ← lift_result (describe_vpc_attribute w region vpc_id enableDnsSupport);
  emit (DescribeVpcAttribute region vpc_id enableDnsHostnames);;
  enable_dns_hostnames ← lift_result (describe_vpc_attribute w region vpc_id enableDnsHostnames);
  mret (Dict.set vpc_details vpc_id
          (cidr_block, tags, enable_dns_support, enable_dns_hostnames)).

Definition not_found_message (w : World) (missing_vpcs : list string) : string :=
  "VPCs not found: " +:+ join ", " (set_iter w missing_vpcs).

Definition fetch_vpc_details (w : World) (vpc_ids : list string) (region : string)
    : M (dict vpc_detail) :=
  emit (DescribeVpcs region vpc_ids);;
  response ← lift_result (describe_vpcs w region vpc_ids);
  vpc_details ← for_each (fetch_one w region) [] response;
  let missing_vpcs := set_difference vpc_ids (Dict.keys vpc_details) in
  if decide (missing_vpcs = []) then mret vpc_details
  else raise (Exception (not_found_message w missing_vpcs)).

(** ** The variable file: [read_existing_tfvars] (imp.py:33-43) *)

Definition read_existing_tfvars (w : World) (tfvars_path : string) : M store :=
  ex ← path_exists tfvars_path;
  if ex : bool then
    try_except
      (content ← read_file tfvars_path;
       parsed ← lift_result (hcl2_loads w content);
       mret (default [] (p_imported_vpc_configs parsed),
             default [] (p_existing_vpc_ids parsed)))
      (fun e =>
         print ("Warning: Could not parse existing tfvars file: " +:+ str_exn e);;
         mret empty_store)
  else mret empty_store.

(** ** Merge and rendering: [create_or_update_tfvars] (imp.py:129-179) *)

(** One turn of the loop at imp.py:137-145. *)
Definition merge_one (st : store) (item : string * vpc_detail) : store :=
  let '(existing_configs, existing_vpc_ids) := st in
  let '(vpc_id, (cidr_block, tags, enable_dns_support, enable_dns_hostnames)) := item in
  let existing_configs :=
    Dict.set existing_configs vpc_id
      {| cidr_block := cidr_block;
         enable_dns_support := enable_dns_support;
         enable_dns_hostnames := enable_dns_hostnames;
         tags := tags |} in
  let existing_vpc_ids :=
    if decide (vpc_id ∈ existing_vpc_ids) then existing_vpc_ids
    else existing_vpc_ids ++ [vpc_id] in
  (existing_configs, existing_vpc_ids).

Definition merge (st : store) (vpc_details : dict vpc_detail) : store :=
  foldl merge_one st vpc_details.

(** imp.py:151-154 *)
Definition format_tags (tags : dict string) : string :=
  join nl ((fun '(k, v) => "      " +:+ k +:+ " = " +:+ dq +:+ v +:+ dq) <$> tags).

(** imp.py:156-163 *)
Definition vpc_config_block (vid : string) (config : vpc_config) : string :=
  "  " +:+ dq +:+ vid +:+ dq +:+ " = {" +:+ nl +:+
  "    cidr_block           = " +:+ dq +:+ cidr_block config +:+ dq +:+ nl +:+
  "    enable_dns_support   = " +:+ str_lower_bool (enable_dns_support config) +:+ nl +:+
  "    enable_dns_hostnames = " +:+ str_lower_bool (enable_dns_hostnames config) +:+ nl +:+
  "    tags = {" +:+ nl +:+
  format_tags (tags config) +:+ nl +:+
  "    }" +:+ nl +:+
  "  }".

(** imp.py:148-176: the blocks come from [existing_configs.items()]. *)
Definition tfvars_content (st : store) (region : string) : string :=
  let '(existing_configs, existing_vpc_ids) := st in
  let vpc_configs := (fun '(vid, config) => vpc_config_block vid config) <$> existing_configs in
  let all_vpc_configs := join nl vpc_configs in
  "aws_region = " +:+ dq +:+ region +:+ dq +:+ nl +:+
  nl +:+
  "existing_vpc_ids = " +:+ json_dumps existing_vpc_ids +:+ nl +:+
  nl +:+
  "imported_vpc_configs = {" +:+ nl +:+
  all_vpc_configs +:+ nl +:+
  "}".

Definition tfvars_path_of (child_module : string) : string :=
  path_join child_module "terraform.tfvars".

Definition create_or_update_tfvars (w : World) (child_module : string)
    (vpc_details : dict vpc_detail) (region : string) : M unit :=
  let tfvars_path := tfvars_path_of child_module in
  st ← read_existing_tfvars w tfvars_path;
  write_file tfvars_path (tfvars_content (merge st vpc_details) region).

(** ** The scaffold (imp.py:45-127) *)

Definition create_directory_structure (base_path : string) : M (string * string) :=
  let parent_module := path_join base_path "Parent_Module" in
  let child_module := path_join base_path "Child_Module" in
  emit (Makedirs parent_module);;
  emit (Makedirs child_module);;
  mret (parent_module, child_module).

Definition parent_main_tf : string := join nl [
  "resource " +:+ dq +:+ "aws_vpc" +:+ dq +:+ " " +:+ dq +:+ "my_existing_vpc" +:+ dq +:+ " {";
  "    for_each = var.imported_vpc_configs";
  "    ";
  "    cidr_block           = each.value.cidr_block";
  "    enable_dns_support   = each.value.enable_dns_support";
  "    enable_dns_hostnames = each.value.enable_dns_hostnames";
  "    tags                 = each.value.tags";
  "}" ].

Definition variable_imported_vpc_configs : list string := [
  "variable " +:+ dq +:+ "imported_vpc_configs" +:+ dq +:+ " {";
  "    description = " +:+ dq +:+ "Imported VPC configurations" +:+ dq;
  "    type = map(object({";
  "        cidr_block           = string";
  "        enable_dns_support   = bool";
  "        enable_dns_hostnames = bool";
  "        tags                 = map(string)";
  "    }))";
  "    default = {}";
  "}" ].

Definition variable_aws_region : list string := [
  "variable " +:+ dq +:+ "aws_region" +:+ dq +:+ " {";
  "    description = " +:+ dq +:+ "AWS region" +:+ dq;
  "    type        = string";
  "}" ].

Definition variable_existing_vpc_ids : list string := [
  "variable " +:+ dq +:+ "existing_vpc_ids" +:+ dq +:+ " {";
  "    description = " +:+ dq +:+ "List of existing VPC IDs to import" +:+ dq;
  "    type        = list(string)";
  "    default     = []";
  "}" ].

Definition parent_variables_tf : string :=
  join nl (variable_imported_vpc_configs ++ [""] ++ variable_aws_region).

Definition child_main_tf : string := join nl [
  "module " +:+ dq +:+ "imported_vpc" +:+ dq +:+ " {";
  "    source = " +:+ dq +:+ "../Parent_Module" +:+ dq;
  "";
  "    imported_vpc_configs = var.imported_vpc_configs";
  "    aws_region          = var.aws_region";
  "}" ].

Definition child_variables_tf : string :=
  join nl (variable_imported_vpc_configs ++ [""] ++ variable_aws_region
           ++ [""] ++ variable_existing_vpc_ids).

Definition backend_tf : string := join nl [
  "terraform {";
  "    backend " +:+ dq +:+ "local" +:+ dq +:+ " {}";
  "}" ].

Definition create_terraform_files (parent_module child_module : string) : M unit :=
  write_file (path_join parent_module "main.tf") parent_main_tf;;
  write_file (path_join parent_module "variables.tf") parent_variables_tf;;
  write_file (path_join child_module "main.tf") child_main_tf;;
  write_file (path_join child_module "variables.tf") child_variables_tf;;
  write_file (path_join child_module "backend.tf") backend_tf.

(** ** The driver: [main] (imp.py:181-245) *)

(** [subprocess.run(cmd, check=True)] *)
Definition run_checked (w : World) (cmd : list string) : M unit :=
  tr ← get_trace;
  emit (Run cmd);;
  r ← lift_result (subprocess_run w tr cmd);
  if decide (returncode r = 0) then mret tt
  else raise (LibraryError (called_process_error w cmd (returncode r))).

(** [subprocess.run(cmd, capture_output=True, text=True)] *)
Definition run_captured (w : World) (cmd : list string) : M completed :=
  tr ← get_trace;
  emit (Run cmd);;
  lift_result (subprocess_run w tr cmd).

Definition import_cmd (vpc_id : string) : list string :=
  [ "terraform"; "import";
    "module.imported_vpc.aws_vpc.my_existing_vpc[" +:+ dq +:+ vpc_id +:+ dq +:+ "]";
    vpc_id ].

(** The body of the loop at imp.py:220-232. *)
Definition import_vpc (w : World) (vpc_id : string) : M unit :=
  print ("Importing VPC " +:+ vpc_id +:+ "...");;
  result ← run_captured w (import_cmd vpc_id);
  if decide (returncode result ≠ 0) then
    print ("Import Output for " +:+ vpc_id +:+ ": " +:+ stdout result);;
    print ("Import Error for " +:+ vpc_id +:+ ": " +:+ stderr result)
  else
    print ("Import successful for " +:+ vpc_id +:+ "!").

Definition init_cmd : list string := ["terraform"; "init"].
Definition plan_cmd : list string := ["terraform"; "plan"].
Definition apply_cmd : list string := ["terraform"; "apply"; "-auto-approve"].

(** The [try] block of [main] (imp.py:200-241). *)
Definition main_body (w : World) (child_module region : string)
    (vpc_ids : list string) : M unit :=
  print ("Fetching details for VPCs: " +:+ join ", " vpc_ids +:+ "...");;
  vpc_details ← fetch_vpc_details w vpc_ids region;
  create_or_update_tfvars w child_module vpc_details region;;
  content ← read_file (tfvars_path_of child_module);
  print ("terraform.tfvars content:" +:+ nl +:+ content);;
  emit (Chdir child_module);;
  print "Initializing Terraform...";;
  run_checked w init_cmd;;
  for_each (fun _ vpc_id => import_vpc w vpc_id) tt vpc_ids;;
  print "Planning changes...";;
  run_checked w plan_cmd;;
  print "Applying changes...";;
  run_checked w apply_cmd;;
  print "VPC imports completed successfully!".

(** [main] with its compiled-in configuration as parameters; the value
    returned is the exit code of the process. *)
Definition main_with (w : World) (base_path region : string)
    (vpc_ids : list string) : M Z :=
  '(parent_module, child_module) ← create_directory_structure base_path;
  create_terraform_files parent_module child_module;;
  try_except
    (main_body w child_module region vpc_ids;; mret 0)
    (fun e => print ("Error: " +:+ str_exn e);; mret 1).

Definition main (w : World) (base_path : string) : M Z :=
  main_with w base_path "us-east-1"
    ["vpc-0e4573ffe1ccab336"; "vpc-07bd81c8b6c7c9b6d"].

(** ** Vocabulary of the properties *)

(** The record that imp.py:138-143 builds from a discovered tuple. *)
Definition config_of (d : vpc_detail) : vpc_config :=
  let '(cidr_block, tags, enable_dns_support, enable_dns_hostnames) := d in
  VpcConfig cidr_block enable_dns_support enable_dns_hostnames tags.

(** The id sequence and the mapping hold the same ids. *)
Definition lockstep (st : store) : Prop :=
  forall id, id ∈ st.2 <-> id ∈ Dict.keys st.1.

(** [old ∪ R], the record of [R] winning where both have the id. *)
Definition mapping_union (old : dict vpc_config) (R : dict vpc_detail)
    (id : string) : option vpc_config :=
  match Dict.get R id with
  | Some d => Some (config_of d)
  | None => Dict.get old id
  end.

(** The text of the variable file, written out line by line with the
    standard library's [String.concat]. *)

(** A flag as a lower-case literal. *)
Definition flag_text (b : bool) : string :=
  match b with
  | true => "true"
  | false => "false"
  end.

(** One label: six spaces, the key, [ = ] and the value in quotes. *)
Definition tag_text (tag : string * string) : string :=
  "      " +:+ tag.1 +:+ " = " +:+ dq +:+ tag.2 +:+ dq.

(** The block of one id: the quoted id, the CIDR string in quotes, the
    two flags, and the labels in their stored order, one per line. *)
Definition block_text (id : string) (config : vpc_config) : string :=
  String.concat nl
    [ "  " +:+ dq +:+ id +:+ dq +:+ " = {";
      "    cidr_block           = " +:+ dq +:+ cidr_block config +:+ dq;
      "    enable_dns_support   = " +:+ flag_text (enable_dns_support config);
      "    enable_dns_hostnames = " +:+ flag_text (enable_dns_hostnames config);
      "    tags = {";
      String.concat nl (tag_text <$> tags config);
      "    }";
      "  }" ].

(** The list literal of the ids: each id escaped and quoted, separated by
    a comma and a space, in square brackets. *)
Definition id_list_text (ids : list string) : string :=
  "[" +:+ String.concat ", " ((fun id => dq +:+ json_escape id +:+ dq) <$> ids)
  +:+ "]".

(** A character that [json.dumps] leaves as it is. *)
Definition plain_char (c : ascii) : bool :=
  let n := N_of_ascii c in
  ((32 <=? n) && (n <=? 126) && negb (n =? 34) && negb (n =? 92))%N.

Fixpoint plain (s : string) : bool :=
  match s with
  | EmptyString => true
  | String c rest => plain_char c && plain rest
  end.

(** The blocks of the ids in [order], each looked up in the mapping. *)
Definition blocks_in_order (order : list string) (configs : dict vpc_config)
    : list string :=
  omap (fun id => block_text id <$> Dict.get configs id) order.

(** The variable file with its blocks taken in a given order of ids. *)
Definition serialize_in_order (order : list string) (st : store)
    (region : string) : string :=
  String.concat nl
    [ "aws_region = " +:+ dq +:+ region +:+ dq;
      "";
      "existing_vpc_ids = " +:+ id_list_text st.2;
      "";
      "imported_vpc_configs = {";
      String.concat nl (blocks_in_order order st.1);
      "}" ].

(** The rendering as the specification words it: one block per id,
    iterating the ordered id sequence. *)
Definition serialize_by_id_sequence (st : store) (region : string) : string :=
  serialize_in_order st.2 st region.

(** What the next run reads back after this run has written the file. *)
Definition update_then_reload (w : World) (child_module : string)
    (vpc_details : dict vpc_detail) (region : string) : M store :=
  create_or_update_tfvars w child_module vpc_details region;;
  read_existing_tfvars w (tfvars_path_of child_module).

(** The round trip: the mapping read back is the union of the mapping
    loaded before the update and the discovery result. *)
Definition round_trips (w : World) (child_module : string)
    (vpc_details : dict vpc_detail) (region : string) (s : state) : Prop :=
  exists old s1 new s2,
    read_existing_tfvars w (tfvars_path_of child_module) s = (Ok old, s1) /\
    update_then_reload w child_module vpc_details region s = (Ok new, s2) /\
    forall id, Dict.get new.1 id = mapping_union old.1 vpc_details id.

(** The two supplementary lookups made for each resource of a response. *)
Definition attribute_lookups (region : string) (response : list Vpc) : list event :=
  response ≫= fun vpc =>
    [DescribeVpcAttribute region (VpcId vpc) enableDnsSupport;
     DescribeVpcAttribute region (VpcId vpc) enableDnsHostnames].

(** What the scaffold step does, for the base directory of the script. *)
Definition parent_of (base_path : string) : string := path_join base_path "Parent_Module".
Definition child_of (base_path : string) : string := path_join base_path "Child_Module".

Definition scaffold_writes (base_path : string) : list (string * string) :=
  [ (path_join (parent_of base_path) "main.tf", parent_main_tf);
    (path_join (parent_of base_path) "variables.tf", parent_variables_tf);
    (path_join (child_of base_path) "main.tf", child_main_tf);
    (path_join (child_of base_path) "variables.tf", child_variables_tf);
    (path_join (child_of base_path) "backend.tf", backend_tf) ].

Definition scaffold_events (base_path : string) : list event :=
  [Makedirs (parent_of base_path); Makedirs (child_of base_path)] ++
  ((fun '(path, content) => WriteFile path content) <$> scaffold_writes base_path).

Definition scaffold_files (base_path : string) (fs : gmap string string)
    : gmap string string :=
  foldl (fun fs '(path, content) => <[path := content]> fs) fs
        (scaffold_writes base_path).

(** Computations that never look at the state: they return the same
    result and append the same events wherever they start, and leave the
    files alone. *)
Definition uniform {A} (P : event -> Prop) (m : M A) : Prop :=
  exists r evs, Forall P evs /\
    forall s, m s = (r, State (files s) (trace s ++ evs)).

Definition is_api_call (e : event) : Prop :=
  match e with
  | DescribeVpcs _ _ | DescribeVpcAttribute _ _ _ => True
  | _ => False
  end.

Definition is_run (e : event) : Prop :=
  match e with Run _ => True | _ => False end.

(** What one turn of the import loop prints and runs, given how the
    import command completed. *)
Definition import_events (c : completed) (vpc_id : string) : list event :=
  [Print ("Importing VPC " +:+ vpc_id +:+ "..."); Run (import_cmd vpc_id)] ++
  if decide (returncode c = 0)
  then [Print ("Import successful for " +:+ vpc_id +:+ "!")]
  else [Print ("Import Output for " +:+ vpc_id +:+ ": " +:+ stdout c);
        Print ("Import Error for " +:+ vpc_id +:+ ": " +:+ stderr c)].

(** What follows the import loop, given how plan and apply complete. *)
Definition finish_events (w : World) (cp ca : completed) : list event :=
  [Print "Planning changes..."; Run plan_cmd] ++
  if decide (returncode cp = 0) then
    [Print "Applying changes..."; Run apply_cmd] ++
    (if decide (returncode ca = 0)
     then [Print "VPC imports completed successfully!"]
     else [Print ("Error: " +:+ called_process_error w apply_cmd (returncode ca))])
  else [Print ("Error: " +:+ called_process_error w plan_cmd (returncode cp))].

Definition exit_code_of (cp ca : completed) : Z :=
  if decide (returncode cp = 0 /\ returncode ca = 0) then 0 else 1.

(** The same decoder, except that every decoded file reports [prior] as
    its [aws_region]. *)
Definition with_prior_region (prior : option string) (w : World) : World :=
  {| describe_vpcs := describe_vpcs w;
     describe_vpc_attribute := describe_vpc_attribute w;
     set_iter := set_iter w;
     hcl2_loads := fun content =>
       match hcl2_loads w content with
       | Ok p => Ok (Parsed prior (p_existing_vpc_ids p) (p_imported_vpc_configs p))
       | Raise e => Raise e
       end;
     subprocess_run := subprocess_run w;
     called_process_error := called_process_error w |}.

(** ** Concrete worlds and inputs used in examples *)

Definition example_world (vpcs : list Vpc) (loads : string -> result parsed)
    (run : list string -> result completed) : World :=
  {| describe_vpcs := fun _ _ => Ok vpcs;
     describe_vpc_attribute := fun _ _ _ => Ok true;
     set_iter := fun l => l;
     hcl2_loads := loads;
     subprocess_run := fun _ cmd => run cmd;
     called_process_error := fun _ _ => "non-zero exit status" |}.

Definition example_vpc (id : string) : Vpc :=
  {| VpcId := id; CidrBlock := "10.0.0.0/16"; Tags := Some [("Name", id)] |}.

Definition no_decoder : string -> result parsed :=
  fun _ => Raise (LibraryError "unexpected token").

Definition all_succeed : list string -> result completed :=
  fun _ => Ok (Completed 0 "" "").

(** The first import fails, every other command succeeds. *)
Definition first_import_fails : list string -> result completed :=
  fun cmd =>
    if decide (cmd = import_cmd "vpc-1")
    then Ok (Completed 1 "" "Error: Resource already managed by Terraform")
    else Ok (Completed 0 "" "").

(** How the imports of the two-id scenario complete. *)
Definition scenario_outcome (vpc_id : string) : completed :=
  if decide (vpc_id = "vpc-1")
  then Completed 1 "" "Error: Resource already managed by Terraform"
  else Completed 0 "" "".

Definition scenario_world : World :=
  example_world [example_vpc "vpc-1"; example_vpc "vpc-2"] no_decoder
    first_import_fails.

Definition scenario_details : dict vpc_detail :=
  [("vpc-1", ("10.0.0.0/16", [("Name", "vpc-1")], true, true));
   ("vpc-2", ("10.0.0.0/16", [("Name", "vpc-2")], true, true))].

(** The provider knows the first of the two compiled-in ids only. *)
Definition only_first_found : World :=
  example_world [example_vpc "vpc-0e4573ffe1ccab336"] no_decoder all_succeed.

Definition initial_state : state := State ∅ [].

Definition cfg_a : vpc_config := VpcConfig "10.0.0.0/16" true false [("Name", "a")].
Definition cfg_b : vpc_config := VpcConfig "10.1.0.0/16" false true [].
Definition cfg_c : vpc_config := VpcConfig "10.2.0.0/16" true true [("Env", "c")].

Definition detail_c : vpc_detail := ("10.2.0.0/16", [("Env", "c")], true, true).

(** A store whose mapping lists [vpc-a] first while its id sequence
    lists [vpc-b] first. *)
Definition store_out_of_order : store :=
  ([("vpc-a", cfg_a); ("vpc-b", cfg_b)], ["vpc-b"; "vpc-a"]).

Definition store_ab : store :=
  ([("vpc-a", cfg_a); ("vpc-b", cfg_b)], ["vpc-a"; "vpc-b"]).

(** A variable file that holds only the id list. *)
Definition ids_only_text : string :=
  "existing_vpc_ids = [" +:+ dq +:+ "vpc-1" +:+ dq +:+ "]".

Definition ids_only_decoder : string -> result parsed :=
  fun content =>
    if decide (content = ids_only_text)
    then Ok (Parsed None (Some ["vpc-1"]) None)
    else Raise (LibraryError "unexpected token").

Definition ids_only_state : state :=
  State {[ "/srv/Child_Module/terraform.tfvars" := ids_only_text ]} [].

(** Two discovery results that differ in the tags of [vpc-1]: a tag
    [Name] whose value holds quotes, and a tag whose key holds them. *)
Definition quoted_value : dict vpc_detail :=
  [("vpc-1", ("10.0.0.0/16",
              [("Name", "a" +:+ dq +:+ " = " +:+ dq +:+ "b")], true, true))].

Definition quoted_key : dict vpc_detail :=
  [("vpc-1", ("10.0.0.0/16",
              [("Name = " +:+ dq +:+ "a" +:+ dq, "b")], true, true))].

(** A tag value that closes its own line and opens another, and the two
    plain tags it passes for. *)
Definition injected_line : dict vpc_detail :=
  [("vpc-1", ("10.0.0.0/16",
              [("Name", "a" +:+ dq +:+ nl +:+ "      Env = " +:+ dq +:+ "b")],
              true, true))].

Definition two_tags : dict vpc_detail :=
  [("vpc-1", ("10.0.0.0/16", [("Name", "a"); ("Env", "b")], true, true))].

(** ** Further vocabulary *)

(** The first two statements of [main] (imp.py:187-190). *)
Definition scaffold_step (base_path : string) : M unit :=
  '(parent_module, child_module) ← create_directory_structure base_path;
  create_terraform_files parent_module child_module.

(** The tuple that imp.py:25 stores for a resource, given the answers of
    the two attribute lookups. *)
Definition detail_of (attr : string -> Attribute -> bool) (vpc : Vpc) : vpc_detail :=
  (CidrBlock vpc, Dict.update [] (default [] (Tags vpc)),
   attr (VpcId vpc) enableDnsSupport, attr (VpcId vpc) enableDnsHostnames).

(** The dictionary that the loop at imp.py:13-25 builds. *)
Definition collect (attr : string -> Attribute -> bool)
    (acc : dict vpc_detail) (response : list Vpc) : dict vpc_detail :=
  foldl (fun acc vpc => Dict.set acc (VpcId vpc) (detail_of attr vpc)) acc response.

(** The six paths a run may write. *)
Definition written_paths (base_path : string) : list string :=
  (scaffold_writes base_path).*1 ++ [tfvars_path_of (child_of base_path)].

(** An event that is not the writing of a file outside [paths]. *)
Definition writes_within (paths : list string) (e : event) : Prop :=
  match e with
  | WriteFile path _ => path ∈ paths
  | _ => True
  end.

(** A computation all of whose events satisfy [P]. *)
Definition emits {A} (P : event -> Prop) (m : M A) : Prop :=
  forall s r s', m s = (r, s') ->
    exists evs, trace s' = trace s ++ evs /\ Forall P evs.

(** A computation that, when it returns normally, has just emitted [e]. *)
Definition ends_with {A} (e : event) (m : M A) : Prop :=
  forall s a s', m s = (Ok a, s') -> last (trace s') = Some e.

(** The state in which the [try] block of [main] starts: the scaffold
    has been written. *)
Definition after_scaffold (base_path : string) (s : state) : state :=
  State (scaffold_files base_path (files s))
        (trace s ++ scaffold_events base_path).

(** ** Further concrete worlds *)

(** [terraform init] exits with 1. *)
Definition init_fails : list string -> result completed :=
  fun cmd =>
    if decide (cmd = init_cmd)
    then Ok (Completed 1 "" "Error: Failed to install provider")
    else Ok (Completed 0 "" "").

(** The import of [vpc-2] cannot be started. *)
Definition second_import_raises : list string -> result completed :=
  fun cmd =>
    if decide (cmd = import_cmd "vpc-2")
    then Raise (LibraryError "[Errno 12] Cannot allocate memory")
    else Ok (Completed 0 "" "").

(** A provider whose batched query is refused. *)
Definition query_refused : World :=
  {| describe_vpcs := fun _ _ => Raise (LibraryError "InvalidVpcID.NotFound");
     describe_vpc_attribute := fun _ _ _ => Ok true;
     set_iter := fun l => l;
     hcl2_loads := no_decoder;
     subprocess_run := fun _ cmd => all_succeed cmd;
     called_process_error := fun _ _ => "non-zero exit status" |}.

(** A provider that returns [vpc-1] and [vpc-2] and refuses the
    attribute lookups of [vpc-2]. *)
Definition lookup_refused : World :=
  {| describe_vpcs := fun _ _ => Ok [example_vpc "vpc-1"; example_vpc "vpc-2"];
     describe_vpc_attribute := fun _ vpc_id _ =>
       if decide (vpc_id = "vpc-2") then Raise (LibraryError "UnauthorizedOperation")
       else Ok true;
     set_iter := fun l => l;
     hcl2_loads := no_decoder;
     subprocess_run := fun _ cmd => all_succeed cmd;
     called_process_error := fun _ _ => "non-zero exit status" |}.

(** A decoder for one file: the variable file of [store_ab]. *)
Definition store_ab_decoder : string -> result parsed :=
  fun content =>
    if decide (content = tfvars_content store_ab "eu-west-1")
    then Ok (Parsed (Some "eu-west-1") (Some store_ab.2) (Some store_ab.1))
    else Raise (LibraryError "unexpected token").

Definition store_ab_state : state :=
  State {[ "/srv/Child_Module/terraform.tfvars" := tfvars_content store_ab "eu-west-1" ]} [].

(** * Properties *)

(** ** Lists *)

Lemma filter_ext_elem {A} (P Q : A -> Prop)
    `{!forall x, Decision (P x), !forall x, Decision (Q x)} (l : list A) :
  (forall x, x ∈ l -> (P x <-> Q x)) -> filter P l = filter Q l.
Proof.
  induction l as [|a l IH]; intros Hext; [done|].
  rewrite !filter_cons.
  assert (filter P l = filter Q l) as ->.
  { apply IH. intros x Hx. apply Hext. by right. }
  apply decide_ext, Hext. by left.
Qed.

(** ** Dictionaries *)

Section DictFacts.
Context {V : Type}.
Implicit Types (d : dict V) (k : string) (v : V).

Lemma dict_get_set_eq d k v : Dict.get (Dict.set d k v) k = Some v.
Proof.
  induction d as [|[k' v'] d IH]; simpl.
  - by rewrite decide_True.
  - destruct (decide (k' = k)) as [->|Hne]; simpl.
    + by rewrite decide_True.
    + by rewrite decide_False.
Qed.

Lemma dict_get_set_ne d k k' v :
  k ≠ k' -> Dict.get (Dict.set d k v) k' = Dict.get d k'.
Proof.
  intros Hne. induction d as [|[k0 v0] d IH]; simpl.
  - by rewrite decide_False.
  - destruct (decide (k0 = k)) as [->|Hk0]; simpl.
    + by rewrite !decide_False.
    + by rewrite IH.
Qed.

Lemma dict_keys_set_in d k v :
  k ∈ Dict.keys d -> Dict.keys (Dict.set d k v) = Dict.keys d.
Proof.
  unfold Dict.keys. induction d as [|[k' v'] d IH]; simpl.
  - intros Hin. by apply elem_of_nil in Hin.
  - intros Hin. destruct (decide (k' = k)) as [->|Hne]; simpl; [done|].
    f_equal. apply IH. by apply elem_of_cons in Hin as [?|?].
Qed.

Lemma dict_keys_set_notin d k v :
  k ∉ Dict.keys d -> Dict.keys (Dict.set d k v) = Dict.keys d ++ [k].
Proof.
  unfold Dict.keys. induction d as [|[k' v'] d IH]; simpl; [done|].
  intros Hnin. apply not_elem_of_cons in Hnin as [Hne Hnin].
  rewrite decide_False by done. simpl. f_equal. by apply IH.
Qed.

Lemma dict_elem_of_keys_set d k k' v :
  k' ∈ Dict.keys (Dict.set d k v) <-> k' = k \/ k' ∈ Dict.keys d.
Proof.
  destruct (decide (k ∈ Dict.keys d)) as [Hin|Hnin].
  - rewrite dict_keys_set_in by done. naive_solver.
  - rewrite dict_keys_set_notin by done. rewrite elem_of_app, list_elem_of_singleton.
    naive_solver.
Qed.

Lemma dict_wf_set d k v : Dict.wf d -> Dict.wf (Dict.set d k v).
Proof.
  unfold Dict.wf. intros Hwf.
  destruct (decide (k ∈ Dict.keys d)) as [Hin|Hnin].
  - by rewrite dict_keys_set_in.
  - rewrite dict_keys_set_notin by done.
    apply NoDup_app. split_and!; [done| |apply NoDup_singleton].
    intros x Hx ->%list_elem_of_singleton. done.
Qed.

Lemma dict_get_None d k : Dict.get d k = None <-> k ∉ Dict.keys d.
Proof.
  unfold Dict.keys. induction d as [|[k' v'] d IH]; simpl.
  - split; [intros _; apply not_elem_of_nil|done].
  - rewrite not_elem_of_cons. destruct (decide (k' = k)) as [->|Hne].
    + split; [done|]. by intros [? _].
    + rewrite IH. naive_solver.
Qed.

Lemma dict_get_is_Some d k : is_Some (Dict.get d k) <-> k ∈ Dict.keys d.
Proof.
  rewrite <-not_eq_None_Some, dict_get_None.
  split; [apply dec_stable|auto].
Qed.
End DictFacts.

(** ** The merge loop (imp.py:137-145) *)

Lemma merge_one_eq (st : store) (k : string) (d : vpc_detail) :
  merge_one st (k, d) =
    (Dict.set st.1 k (config_of d),
     if decide (k ∈ st.2) then st.2 else st.2 ++ [k]).
Proof. by destruct st, d as [[[? ?] ?] ?]. Qed.

Lemma merge_cons (st : store) (item : string * vpc_detail) (R : dict vpc_detail) :
  merge st (item :: R) = merge (merge_one st item) R.
Proof. done. Qed.

Lemma merge_get_other (st : store) (R : dict vpc_detail) (id : string) :
  id ∉ Dict.keys R -> Dict.get (merge st R).1 id = Dict.get st.1 id.
Proof.
  revert st. induction R as [|[k d] R IH]; intros st Hnin; [done|].
  unfold Dict.keys in *. simpl in Hnin.
  apply not_elem_of_cons in Hnin as [Hne Hnin].
  rewrite merge_cons, IH by done.
  rewrite merge_one_eq. simpl. by apply dict_get_set_ne.
Qed.

Lemma merge_get_new (st : store) (R : dict vpc_detail) (id : string) (d : vpc_detail) :
  Dict.wf R -> Dict.get R id = Some d ->
  Dict.get (merge st R).1 id = Some (config_of d).
Proof.
  revert st. induction R as [|[k d'] R IH]; intros st Hwf Hget; [done|].
  unfold Dict.wf, Dict.keys in Hwf. simpl in Hwf.
  apply NoDup_cons in Hwf as [Hk Hwf]. simpl in Hget.
  rewrite merge_cons. destruct (decide (k = id)) as [->|Hne].
  - injection Hget as ->. rewrite merge_get_other by done.
    rewrite merge_one_eq. simpl. apply dict_get_set_eq.
  - by apply IH.
Qed.

Lemma merge_ids (st : store) (R : dict vpc_detail) :
  Dict.wf R ->
  (merge st R).2 = st.2 ++ filter (fun k => k ∉ st.2) (Dict.keys R).
Proof.
  revert st. induction R as [|[k d] R IH]; intros st Hwf.
  - simpl. by rewrite app_nil_r.
  - unfold Dict.wf, Dict.keys in Hwf. simpl in Hwf.
    apply NoDup_cons in Hwf as [Hk Hwf].
    rewrite merge_cons, IH by done. rewrite merge_one_eq. simpl.
    unfold Dict.keys. simpl. rewrite filter_cons.
    destruct (decide (k ∈ st.2)) as [Hin|Hnin].
    + by rewrite decide_False by auto.
    + rewrite decide_True by done. rewrite <-app_assoc. simpl. do 2 f_equal.
      apply filter_ext_elem. intros x Hx.
      rewrite not_elem_of_app, list_elem_of_singleton.
      split; [tauto|]. intros ?. split; [done|]. by intros ->.
Qed.

Lemma merge_keys (st : store) (R : dict vpc_detail) (id : string) :
  id ∈ Dict.keys (merge st R).1 <-> id ∈ Dict.keys st.1 \/ id ∈ Dict.keys R.
Proof.
  revert st. induction R as [|[k d] R IH]; intros st.
  - change (Dict.keys (@nil (string * vpc_detail))) with (@nil string).
    rewrite elem_of_nil. simpl. tauto.
  - rewrite merge_cons, IH, merge_one_eq. simpl.
    rewrite dict_elem_of_keys_set.
    change (Dict.keys ((k, d) :: R)) with (k :: Dict.keys R).
    rewrite elem_of_cons. tauto.
Qed.

Lemma merge_ids_elem (st : store) (R : dict vpc_detail) (id : string) :
  id ∈ (merge st R).2 <-> id ∈ st.2 \/ id ∈ Dict.keys R.
Proof.
  revert st. induction R as [|[k d] R IH]; intros st.
  - change (Dict.keys (@nil (string * vpc_detail))) with (@nil string).
    rewrite elem_of_nil. simpl. tauto.
  - rewrite merge_cons, IH, merge_one_eq. simpl.
    change (Dict.keys ((k, d) :: R)) with (k :: Dict.keys R).
    rewrite elem_of_cons.
    destruct (decide (k ∈ st.2)).
    + naive_solver.
    + rewrite elem_of_app, list_elem_of_singleton. tauto.
Qed.

Lemma merge_wf (st : store) (R : dict vpc_detail) :
  Dict.wf st.1 -> Dict.wf (merge st R).1.
Proof.
  revert st. induction R as [|[k d] R IH]; intros st Hwf; [done|].
  rewrite merge_cons. apply IH. rewrite merge_one_eq. simpl.
  by apply dict_wf_set.
Qed.

(** The mapping's key order and the id sequence move together. *)
Lemma merge_aligned (st : store) (R : dict vpc_detail) :
  Dict.keys st.1 = st.2 -> Dict.keys (merge st R).1 = (merge st R).2.
Proof.
  revert st. induction R as [|[k d] R IH]; intros st Heq; [done|].
  rewrite merge_cons. apply IH. rewrite merge_one_eq. simpl.
  destruct (decide (k ∈ st.2)) as [Hin|Hnin].
  - rewrite dict_keys_set_in by (by rewrite Heq). done.
  - rewrite dict_keys_set_notin by (by rewrite Heq). by rewrite Heq.
Qed.

(** ** Running the script's monad *)

Lemma run_bind {A B} (m : M A) (f : A -> M B) (s : state) :
  (m ≫= f) s =
    match m s with
    | (Ok a, s') => f a s'
    | (Raise e, s') => (Raise e, s')
    end.
Proof. done. Qed.

Lemma run_ret {A} (a : A) (s : state) : mret (M := M) a s = (Ok a, s).
Proof. done. Qed.

Lemma run_emit (e : event) (s : state) :
  emit e s = (Ok tt, State (files s) (trace s ++ [e])).
Proof. done. Qed.

Lemma run_print (line : string) (s : state) :
  print line s = (Ok tt, State (files s) (trace s ++ [Print line])).
Proof. done. Qed.

Lemma run_write_file (path content : string) (s : state) :
  write_file path content s =
    (Ok tt, State (<[path := content]> (files s))
                  (trace s ++ [WriteFile path content])).
Proof. done. Qed.

Lemma run_get_trace (s : state) : get_trace s = (Ok (trace s), s).
Proof. done. Qed.

Lemma run_lift_result {A} (r : result A) (s : state) : lift_result r s = (r, s).
Proof. done. Qed.

Lemma run_raise {A} (e : exn) (s : state) : raise (A := A) e s = (Raise e, s).
Proof. done. Qed.

Lemma run_try_except {A} (body : M A) (handler : exn -> M A) (s : state) :
  try_except body handler s =
    match body s with
    | (Ok a, s') => (Ok a, s')
    | (Raise e, s') => handler e s'
    end.
Proof. done. Qed.

Lemma run_read_file_Some (path content : string) (s : state) :
  files s !! path = Some content ->
  read_file path s = (Ok content, State (files s) (trace s ++ [ReadFile path])).
Proof. intros H. unfold read_file. by rewrite H. Qed.

Lemma for_each_nil {A B} (body : B -> A -> M B) (acc : B) :
  for_each body acc [] = mret acc.
Proof. done. Qed.

Lemma for_each_cons {A B} (body : B -> A -> M B) (acc : B) (x : A) (rest : list A) :
  for_each body acc (x :: rest) = body acc x ≫= fun acc' => for_each body acc' rest.
Proof. done. Qed.

Create Rewrite HintDb run.
#[global] Hint Rewrite @run_bind @run_ret run_emit run_print run_write_file
  run_get_trace @run_lift_result @run_raise @run_try_except : run.

Ltac run := repeat (autorewrite with run; simpl).

Ltac run_in H := repeat (autorewrite with run in H; cbn [files trace] in H).

Lemma omap_ext_elem {A B} (f g : A -> option B) (l : list A) :
  (forall x, x ∈ l -> f x = g x) -> omap f l = omap g l.
Proof.
  induction l as [|a l IH]; intros Hext; [done|].
  assert (omap f l = omap g l) as Hl.
  { apply IH. intros x Hx. apply Hext. by right. }
  change (omap f (a :: l)) with (from_option (fun y => y :: omap f l) (omap f l) (f a)).
  change (omap g (a :: l)) with (from_option (fun y => y :: omap g l) (omap g l) (g a)).
  rewrite Hl, (Hext a) by (by left). done.
Qed.

Lemma omap_cons_Some {A B} (f : A -> option B) (a : A) (l : list A) (y : B) :
  f a = Some y -> omap f (a :: l) = y :: omap f l.
Proof.
  intros Hfa.
  change (omap f (a :: l)) with (from_option (fun y => y :: omap f l) (omap f l) (f a)).
  by rewrite Hfa.
Qed.

(** ** Text *)

Lemma string_app_assoc (a b c : string) : (a +:+ b) +:+ c = a +:+ (b +:+ c).
Proof.
  induction a as [|x a IH]; [done|].
  change (String x ((a +:+ b) +:+ c) = String x (a +:+ (b +:+ c))).
  by rewrite IH.
Qed.

(** [sep.join] written with the standard library's [String.concat]. *)
Lemma join_concat (sep : string) (parts : list string) :
  join sep parts = String.concat sep parts.
Proof.
  induction parts as [|p parts IH]; [done|].
  destruct parts as [|q parts]; [done|].
  change (p +:+ sep +:+ join sep (q :: parts) =
          p +:+ sep +:+ String.concat sep (q :: parts)).
  by rewrite IH.
Qed.

(** ** Claims about the merge *)

Lemma merge_mapping_union (st : store) (R : dict vpc_detail) (id : string) :
  Dict.wf R -> Dict.get (merge st R).1 id = mapping_union st.1 R id.
Proof.
  intros Hwf. unfold mapping_union.
  destruct (Dict.get R id) as [d|] eqn:Hget.
  - by apply merge_get_new.
  - apply merge_get_other. by apply dict_get_None.
Qed.

(** C4. Merging a discovery result that holds an id already in the store
    replaces that id's whole record: the merged entry is the record built
    from the new tuple (its CIDR, both flags and its tag map), whatever
    the old record was. *)
Theorem merge_last_write_wins (st : store) (R : dict vpc_detail)
    (id : string) (old : vpc_config)
    (cidr : string) (tgs : dict string) (dns_support dns_hostnames : bool) :
  Dict.wf R ->
  Dict.get st.1 id = Some old ->
  Dict.get R id = Some (cidr, tgs, dns_support, dns_hostnames) ->
  Dict.get (merge st R).1 id =
    Some {| cidr_block := cidr;
            enable_dns_support := dns_support;
            enable_dns_hostnames := dns_hostnames;
            tags := tgs |}.
Proof.
  intros Hwf _ Hnew. by rewrite (merge_get_new st R id _ Hwf Hnew).
Qed.

Lemma merge_last_write_wins_witness :
  Dict.get (merge store_ab [("vpc-a", detail_c)]).1 "vpc-a" = Some cfg_c.
Proof.
  apply (merge_last_write_wins store_ab [("vpc-a", detail_c)] "vpc-a" cfg_a).
  - unfold Dict.wf. vm_compute. apply NoDup_singleton.
  - reflexivity.
  - reflexivity.
Defined.

(** C5. Merging keeps the ids already in the sequence where they are and
    appends the ids it introduces after them, in the order of the
    discovery result; an id already in the sequence is not appended
    again, so a duplicate-free sequence stays duplicate-free.  For the
    sequence [A, B] and a new id [C] the result is [A, B, C]. *)
Theorem merge_order_preserved (st : store) (R : dict vpc_detail) :
  Dict.wf R ->
  (merge st R).2 = st.2 ++ filter (fun k => k ∉ st.2) (Dict.keys R)
  /\ (forall id d, id ∈ st.2 -> (merge_one st (id, d)).2 = st.2)
  /\ (NoDup st.2 -> NoDup (merge st R).2)
  /\ (forall A B C d, st.2 = [A; B] -> C ∉ [A; B] -> R = [(C, d)] ->
        (merge st R).2 = [A; B; C]).
Proof.
  intros Hwf. split_and!.
  - by apply merge_ids.
  - intros id d Hin. rewrite merge_one_eq. simpl. by rewrite decide_True.
  - intros Hnd. rewrite merge_ids by done. apply NoDup_app. split_and!.
    + done.
    + intros x Hx [Hnin _]%list_elem_of_filter. done.
    + by apply NoDup_filter.
  - intros A B C d Hst HC ->. rewrite merge_ids by done. rewrite Hst.
    change (Dict.keys [(C, d)]) with [C]. rewrite filter_cons, filter_nil.
    by rewrite decide_True.
Qed.

Lemma merge_order_preserved_witness :
  (merge store_ab [("vpc-c", detail_c)]).2 = ["vpc-a"; "vpc-b"; "vpc-c"].
Proof.
  assert (Dict.wf [("vpc-c", detail_c)]) as Hwf.
  { unfold Dict.wf. vm_compute. apply NoDup_singleton. }
  destruct (merge_order_preserved store_ab [("vpc-c", detail_c)] Hwf)
    as (_ & _ & _ & Habc).
  apply (Habc "vpc-a" "vpc-b" "vpc-c" detail_c); [reflexivity| |reflexivity].
  rewrite !not_elem_of_cons. split_and!; [done|done|apply not_elem_of_nil].
Defined.

(** ** Claims about discovery *)

Lemma fetch_one_run (w : World) (region : string) (acc : dict vpc_detail)
    (vpc : Vpc) (s : state) (b1 b2 : bool) :
  describe_vpc_attribute w region (VpcId vpc) enableDnsSupport = Ok b1 ->
  describe_vpc_attribute w region (VpcId vpc) enableDnsHostnames = Ok b2 ->
  fetch_one w region acc vpc s =
    (Ok (Dict.set acc (VpcId vpc)
           (CidrBlock vpc, Dict.update [] (default [] (Tags vpc)), b1, b2)),
     State (files s) (trace s ++ attribute_lookups region [vpc])).
Proof.
  intros H1 H2. unfold fetch_one. run. rewrite H1. run. rewrite H2. run.
  by rewrite <-app_assoc.
Qed.



Lemma set_difference_elem (xs ys : list string) (x : string) :
  x ∈ set_difference xs ys <-> x ∈ xs /\ x ∉ ys.
Proof.
  unfold set_difference. rewrite elem_of_remove_dups, list_elem_of_filter. tauto.
Qed.





(** ** Claims about loading the variable file *)

Lemma load_absent (w : World) (path : string) (s : state) :
  files s !! path = None ->
  read_existing_tfvars w path s = (Ok empty_store, s).
Proof.
  intros Hnone. unfold read_existing_tfvars, mbind, M_bind, path_exists.
  by rewrite Hnone.
Qed.

Lemma load_decoded (w : World) (path content : string) (p : parsed) (s : state) :
  files s !! path = Some content ->
  hcl2_loads w content = Ok p ->
  read_existing_tfvars w path s =
    (Ok (default [] (p_imported_vpc_configs p), default [] (p_existing_vpc_ids p)),
     State (files s) (trace s ++ [ReadFile path])).
Proof.
  intros Hsome Hok.
  unfold read_existing_tfvars, mbind, M_bind, path_exists, try_except, read_file,
    lift_result.
  rewrite Hsome. simpl. rewrite Hsome, Hok. done.
Qed.

Lemma load_unparseable (w : World) (path content : string) (e : exn) (s : state) :
  files s !! path = Some content ->
  hcl2_loads w content = Raise e ->
  read_existing_tfvars w path s =
    (Ok empty_store,
     State (files s)
       (trace s ++ [ReadFile path;
                    Print ("Warning: Could not parse existing tfvars file: "
                           +:+ str_exn e)])).
Proof.
  intros Hsome Hraise.
  unfold read_existing_tfvars, mbind, M_bind, path_exists, try_except, read_file,
    lift_result.
  rewrite Hsome. simpl. rewrite Hsome, Hraise.
  unfold print, emit. simpl. by rewrite <-app_assoc.
Qed.

(** C6, counterexample.  A variable file that holds the id list and no
    [imported_vpc_configs] block decodes, so that it does not fit the
    two-block schema; loading it prints no warning and returns a store
    that is not empty. *)
Lemma load_ids_only_no_warning :
  read_existing_tfvars (example_world [] ids_only_decoder all_succeed)
    "/srv/Child_Module/terraform.tfvars" ids_only_state =
  (Ok ([], ["vpc-1"]),
   State (files ids_only_state) [ReadFile "/srv/Child_Module/terraform.tfvars"])
  /\ ([], ["vpc-1"]) <> empty_store.
Proof. split; [reflexivity|discriminate]. Qed.

(** C6, as the code has it.  Loading never raises and never touches a
    file.  When no file is at the path it returns the empty store and
    does nothing else; when the file is there but the decoder raises on
    its content it prints a warning with the decoder's message and
    returns the empty store.  A file that decodes is not checked against
    the schema: its two blocks are returned as decoded, a missing block
    as empty, and no warning is printed. *)
Theorem load_recovers (w : World) (path : string) (s : state) :
  exists st s',
    read_existing_tfvars w path s = (Ok st, s')
    /\ files s' = files s
    /\ (files s !! path = None -> st = empty_store /\ s' = s)
    /\ (forall content e,
          files s !! path = Some content ->
          hcl2_loads w content = Raise e ->
          st = empty_store /\
          trace s' = trace s ++
            [ReadFile path;
             Print ("Warning: Could not parse existing tfvars file: "
                    +:+ str_exn e)])
    /\ (forall content p,
          files s !! path = Some content ->
          hcl2_loads w content = Ok p ->
          st = (default [] (p_imported_vpc_configs p),
                default [] (p_existing_vpc_ids p)) /\
          trace s' = trace s ++ [ReadFile path]).
Proof.
  destruct (files s !! path) as [content|] eqn:Hfile.
  - destruct (hcl2_loads w content) as [p|e] eqn:Hdec.
    + eexists _, _. split; [by apply (load_decoded w path content p)|].
      split_and!; [done|done| |].
      * intros c e Hc He. congruence.
      * intros c p' Hc Hp'. injection Hc as <-. rewrite Hdec in Hp'.
        by injection Hp' as <-.
    + eexists _, _. split; [by apply (load_unparseable w path content e)|].
      split_and!; [done|done| |].
      * intros c e' Hc He. injection Hc as <-. rewrite Hdec in He.
        by injection He as <-.
      * intros c p Hc Hp. injection Hc as <-. congruence.
  - eexists _, _. split; [by apply load_absent|].
    split_and!; [done|done| |].
    * intros c e Hc. congruence.
    * intros c p Hc. congruence.
Qed.

Lemma load_recovers_witness :
  read_existing_tfvars (example_world [] no_decoder all_succeed)
    "/srv/Child_Module/terraform.tfvars" ids_only_state =
  (Ok empty_store,
   State (files ids_only_state)
     [ReadFile "/srv/Child_Module/terraform.tfvars";
      Print "Warning: Could not parse existing tfvars file: unexpected token"]).
Proof.
  destruct (load_recovers (example_world [] no_decoder all_succeed)
              "/srv/Child_Module/terraform.tfvars" ids_only_state)
    as (st & s' & Hrun & Hfiles & _ & Hbad & _).
  destruct (Hbad ids_only_text (LibraryError "unexpected token")) as [-> Htrace].
  - reflexivity.
  - reflexivity.
  - rewrite Hrun. f_equal. destruct s' as [f t]. simpl in *. by subst.
Defined.

(** ** Lock-step of the id sequence and the mapping *)

Lemma lockstep_empty : lockstep empty_store.
Proof. intros id. simpl. unfold Dict.keys. simpl. done. Qed.

Lemma merge_lockstep (st : store) (R : dict vpc_detail) :
  lockstep st -> lockstep (merge st R).
Proof.
  intros Hls id. rewrite merge_ids_elem, merge_keys, (Hls id). done.
Qed.

(** C9, counterexample.  A variable file that holds the id list
    [["vpc-1"]] and no [imported_vpc_configs] block loads as a store whose
    sequence names an id that its mapping lacks. *)
Lemma load_ids_only_not_lockstep :
  exists st s',
    read_existing_tfvars (example_world [] ids_only_decoder all_succeed)
      "/srv/Child_Module/terraform.tfvars" ids_only_state = (Ok st, s')
    /\ ~ lockstep st.
Proof.
  eexists _, _. split; [reflexivity|].
  intros Hls. specialize (Hls "vpc-1"). simpl in Hls.
  assert ("vpc-1" ∈ Dict.keys (@nil (string * vpc_config))) as Hin.
  { apply Hls. by left. }
  by apply elem_of_nil in Hin.
Qed.

(** C9, as the code has it.  Merging keeps the two in lock-step, and the
    store loaded from a missing or undecodable file is in lock-step, so
    the store merged after such a load is; a file that decodes is taken
    as it is, its two blocks not compared. *)
Theorem lockstep_kept_by_merge (w : World) (path : string) (s : state)
    (st : store) (R : dict vpc_detail) :
  (lockstep st -> lockstep (merge st R))
  /\ (forall id, id ∈ Dict.keys R ->
        id ∈ (merge st R).2 /\ id ∈ Dict.keys (merge st R).1)
  /\ ((files s !! path = None \/
       exists content e, files s !! path = Some content /\
                         hcl2_loads w content = Raise e) ->
      exists st0 s', read_existing_tfvars w path s = (Ok st0, s') /\
                     lockstep st0 /\ lockstep (merge st0 R)).
Proof.
  split_and!.
  - apply merge_lockstep.
  - intros id Hin. rewrite merge_ids_elem, merge_keys. tauto.
  - intros [Hnone|(content & e & Hsome & Hraise)].
    + eexists _, _. split; [by apply load_absent|].
      split; [apply lockstep_empty|apply merge_lockstep, lockstep_empty].
    + eexists _, _. split; [by apply (load_unparseable w path content e)|].
      split; [apply lockstep_empty|apply merge_lockstep, lockstep_empty].
Qed.

Lemma lockstep_kept_by_merge_witness :
  lockstep (merge empty_store [("vpc-c", detail_c)]).
Proof.
  destruct (lockstep_kept_by_merge (example_world [] no_decoder all_succeed)
              "/srv/Child_Module/terraform.tfvars" initial_state
              empty_store [("vpc-c", detail_c)]) as (Hkeep & _ & _).
  apply Hkeep. apply lockstep_empty.
Defined.

(** ** Claims about the rendered variable file *)

(** The file written for the empty store. *)
Example tfvars_content_empty_store :
  tfvars_content empty_store "us-east-1" =
  String.concat nl [ "aws_region = " +:+ dq +:+ "us-east-1" +:+ dq;
            "";
            "existing_vpc_ids = []";
            "";
            "imported_vpc_configs = {";
            "";
            "}" ].
Proof. reflexivity. Qed.

(** One record without tags: the [tags] block holds one empty line. *)
Example tfvars_content_no_tags :
  tfvars_content ([("vpc-b", cfg_b)], ["vpc-b"]) "us-east-1" =
  String.concat nl [ "aws_region = " +:+ dq +:+ "us-east-1" +:+ dq;
            "";
            "existing_vpc_ids = [" +:+ dq +:+ "vpc-b" +:+ dq +:+ "]";
            "";
            "imported_vpc_configs = {";
            "  " +:+ dq +:+ "vpc-b" +:+ dq +:+ " = {";
            "    cidr_block           = " +:+ dq +:+ "10.1.0.0/16" +:+ dq;
            "    enable_dns_support   = false";
            "    enable_dns_hostnames = true";
            "    tags = {";
            "";
            "    }";
            "  }";
            "}" ].
Proof. reflexivity. Qed.

(** Two records, one with a tag and one without, written out in full. *)
Example tfvars_content_two_records :
  tfvars_content store_ab "us-east-1" =
  String.concat nl
    [ "aws_region = " +:+ dq +:+ "us-east-1" +:+ dq;
      "";
      "existing_vpc_ids = [" +:+ dq +:+ "vpc-a" +:+ dq +:+ ", "
        +:+ dq +:+ "vpc-b" +:+ dq +:+ "]";
      "";
      "imported_vpc_configs = {";
      "  " +:+ dq +:+ "vpc-a" +:+ dq +:+ " = {";
      "    cidr_block           = " +:+ dq +:+ "10.0.0.0/16" +:+ dq;
      "    enable_dns_support   = true";
      "    enable_dns_hostnames = false";
      "    tags = {";
      "      Name = " +:+ dq +:+ "a" +:+ dq;
      "    }";
      "  }";
      "  " +:+ dq +:+ "vpc-b" +:+ dq +:+ " = {";
      "    cidr_block           = " +:+ dq +:+ "10.1.0.0/16" +:+ dq;
      "    enable_dns_support   = false";
      "    enable_dns_hostnames = true";
      "    tags = {";
      "";
      "    }";
      "  }";
      "}" ].
Proof. reflexivity. Qed.

(** The id list goes through [json.dumps], which escapes a quote. *)
Example json_dumps_escapes_quote :
  json_dumps ["a" +:+ dq +:+ "b"] =
  "[" +:+ dq +:+ "a" +:+ bs +:+ dq +:+ "b" +:+ dq +:+ "]".
Proof. reflexivity. Qed.

Lemma update_run (w : World) (child_module : string) (R : dict vpc_detail)
    (region : string) (s s1 : state) (st : store) :
  read_existing_tfvars w (tfvars_path_of child_module) s = (Ok st, s1) ->
  create_or_update_tfvars w child_module R region s =
    (Ok tt,
     State (<[tfvars_path_of child_module := tfvars_content (merge st R) region]>
              (files s1))
           (trace s1 ++ [WriteFile (tfvars_path_of child_module)
                           (tfvars_content (merge st R) region)])).
Proof.
  intros Hload. unfold create_or_update_tfvars. rewrite run_bind, Hload.
  apply run_write_file.
Qed.

Lemma load_total (w : World) (path : string) (s : state) :
  exists st evs,
    read_existing_tfvars w path s = (Ok st, State (files s) (trace s ++ evs))
    /\ Forall (fun e => match e with ReadFile _ | Print _ => True | _ => False end) evs.
Proof.
  destruct (files s !! path) as [content|] eqn:Hfile.
  - destruct (hcl2_loads w content) as [p|e] eqn:Hdec.
    + eexists _, _. split; [by apply (load_decoded w path content p)|].
      by repeat constructor.
    + eexists _, _. split; [by apply (load_unparseable w path content e)|].
      by repeat constructor.
  - exists empty_store, []. rewrite app_nil_r. split; [|done].
    rewrite load_absent by done. by destruct s.
Qed.

Lemma load_ignores_prior_region (prior : option string) (w : World)
    (path : string) (s : state) :
  read_existing_tfvars (with_prior_region prior w) path s =
  read_existing_tfvars w path s.
Proof.
  destruct (files s !! path) as [content|] eqn:Hfile.
  - destruct (hcl2_loads w content) as [p|e] eqn:Hdec.
    + rewrite (load_decoded w path content p) by done.
      rewrite (load_decoded (with_prior_region prior w) path content
                 (Parsed prior (p_existing_vpc_ids p) (p_imported_vpc_configs p)));
        [done|done|]. simpl. by rewrite Hdec.
    + rewrite (load_unparseable w path content e) by done.
      rewrite (load_unparseable (with_prior_region prior w) path content e);
        [done|done|]. simpl. by rewrite Hdec.
  - by rewrite !load_absent.
Qed.

(** C10. The file that a run writes opens with the declaration of the
    run's own region, and nothing in it depends on the region that the
    prior file recorded: the decoder may report any prior region, or
    none, and the files written are the same. *)
Theorem tfvars_region_is_current (w : World) (child_module : string)
    (R : dict vpc_detail) (region : string) (s : state) (prior : option string) :
  exists rest s',
    create_or_update_tfvars w child_module R region s = (Ok tt, s')
    /\ files s' !! tfvars_path_of child_module =
         Some ("aws_region = " +:+ dq +:+ region +:+ dq +:+ nl +:+ rest)
    /\ create_or_update_tfvars (with_prior_region prior w) child_module R region s
         = (Ok tt, s').
Proof.
  destruct (load_total w (tfvars_path_of child_module) s) as (st & evs & Hload & _).
  destruct (merge st R) as [configs ids] eqn:Hmerge.
  eexists _, _. split_and!.
  - rewrite (update_run _ _ _ _ _ _ _ Hload). reflexivity.
  - simpl. rewrite lookup_insert_eq. rewrite Hmerge. simpl. reflexivity.
  - rewrite <-(load_ignores_prior_region prior) in Hload.
    rewrite (update_run _ _ _ _ _ _ _ Hload). reflexivity.
Qed.

Lemma flag_text_lower (b : bool) : str_lower_bool b = flag_text b.
Proof. by destruct b. Qed.

Lemma format_tags_text (tgs : dict string) :
  format_tags tgs = String.concat nl (tag_text <$> tgs).
Proof.
  unfold format_tags. rewrite join_concat. f_equal.
  apply list_fmap_ext. by intros _ [k v] _.
Qed.

Lemma vpc_config_block_text (vid : string) (config : vpc_config) :
  vpc_config_block vid config = block_text vid config.
Proof.
  unfold vpc_config_block, block_text.
  rewrite format_tags_text, !flag_text_lower. simpl.
  by rewrite !string_app_assoc.
Qed.

Lemma json_escape_plain (s : string) : plain s = true -> json_escape s = s.
Proof.
  induction s as [|c s IH]; [done|]. simpl.
  intros [Hc Hs]%andb_prop. rewrite (IH Hs).
  unfold plain_char in Hc. unfold json_escape_char.
  apply andb_prop in Hc as [Hc H92]. apply andb_prop in Hc as [Hc H34].
  apply negb_true_iff in H92, H34. rewrite H34, H92.
  destruct (N_of_ascii c =? 10)%N eqn:H10.
  { apply N.eqb_eq in H10. rewrite H10 in Hc. discriminate Hc. }
  destruct (N_of_ascii c =? 13)%N eqn:H13.
  { apply N.eqb_eq in H13. rewrite H13 in Hc. discriminate Hc. }
  destruct (N_of_ascii c =? 9)%N eqn:H9.
  { apply N.eqb_eq in H9. rewrite H9 in Hc. discriminate Hc. }
  destruct (N_of_ascii c =? 8)%N eqn:H8.
  { apply N.eqb_eq in H8. rewrite H8 in Hc. discriminate Hc. }
  destruct (N_of_ascii c =? 12)%N eqn:H12.
  { apply N.eqb_eq in H12. rewrite H12 in Hc. discriminate Hc. }
  rewrite Hc. done.
Qed.

Lemma json_dumps_text (ids : list string) : json_dumps ids = id_list_text ids.
Proof. unfold json_dumps, id_list_text, json_dumps_str. by rewrite join_concat. Qed.

Lemma id_list_text_plain (ids : list string) :
  Forall (fun id => plain id = true) ids ->
  id_list_text ids =
    "[" +:+ String.concat ", " ((fun id => dq +:+ id +:+ dq) <$> ids) +:+ "]".
Proof.
  intros Hplain. unfold id_list_text. do 3 f_equal.
  apply Forall_fmap_ext_1. eapply Forall_impl; [exact Hplain|].
  intros id Hid. simpl. by rewrite json_escape_plain.
Qed.

Lemma blocks_in_order_keys (d : dict vpc_config) :
  Dict.wf d ->
  blocks_in_order (Dict.keys d) d =
    (fun '(vid, config) => vpc_config_block vid config) <$> d.
Proof.
  unfold blocks_in_order. induction d as [|[k c] d IH]; intros Hwf; [done|].
  unfold Dict.wf in Hwf. change (Dict.keys ((k, c) :: d)) with (k :: Dict.keys d) in *.
  apply NoDup_cons in Hwf as [Hk Hwf]. rewrite fmap_cons.
  rewrite (omap_cons_Some _ k _ (vpc_config_block k c)).
  - f_equal. rewrite <-IH by done. apply omap_ext_elem. intros x Hx.
    simpl. rewrite decide_False; [done|]. by intros ->.
  - simpl. rewrite decide_True by done. simpl. by rewrite vpc_config_block_text.
Qed.

Lemma tfvars_content_in_order (st : store) (region : string) :
  Dict.wf st.1 ->
  tfvars_content st region = serialize_in_order (Dict.keys st.1) st region.
Proof.
  intros Hwf. destruct st as [configs ids]. unfold serialize_in_order.
  cbn [fst snd] in *. rewrite blocks_in_order_keys by done.
  unfold tfvars_content. rewrite json_dumps_text, join_concat. simpl.
  by rewrite !string_app_assoc.
Qed.

(** C8, counterexample.  For a store whose mapping lists [vpc-a] before
    [vpc-b] while its id sequence is [vpc-b, vpc-a], the text written is
    not the text obtained by iterating the id sequence. *)
Lemma tfvars_blocks_not_by_id_sequence :
  tfvars_content store_out_of_order "us-east-1" <>
  serialize_by_id_sequence store_out_of_order "us-east-1".
Proof. intros H. vm_compute in H. discriminate H. Qed.

(** C8, as the code has it.  The text is, in this order, the region
    declaration, the id sequence as a list literal (each id quoted, with
    [json.dumps] escapes, separated by a comma and a space), and one
    block per entry of the mapping in the mapping's own insertion order;
    each block holds the quoted id, the CIDR string in quotes, the two
    flags as [true] or [false], and the tags as [key = "value"] lines in
    their stored order.  When the mapping's keys are listed in the order
    of the id sequence, as they still are after merging into such a
    store, this is the text obtained by iterating the id sequence. *)
Theorem tfvars_blocks_follow_mapping (st : store) (region : string) :
  Dict.wf st.1 ->
  tfvars_content st region = serialize_in_order (Dict.keys st.1) st region
  /\ (Forall (fun id => plain id = true) st.2 ->
      id_list_text st.2 =
        "[" +:+ String.concat ", " ((fun id => dq +:+ id +:+ dq) <$> st.2) +:+ "]")
  /\ (Dict.keys st.1 = st.2 ->
      forall R,
        tfvars_content st region = serialize_by_id_sequence st region /\
        tfvars_content (merge st R) region =
          serialize_by_id_sequence (merge st R) region).
Proof.
  intros Hwf. split_and!; [by apply tfvars_content_in_order| |].
  { apply id_list_text_plain. }
  intros Heq R. unfold serialize_by_id_sequence. split.
  - rewrite <-Heq. by apply tfvars_content_in_order.
  - rewrite <-(merge_aligned st R Heq). apply tfvars_content_in_order.
    by apply merge_wf.
Qed.

Lemma tfvars_blocks_follow_mapping_witness :
  tfvars_content (merge store_ab [("vpc-c", detail_c)]) "us-east-1" =
  serialize_by_id_sequence (merge store_ab [("vpc-c", detail_c)]) "us-east-1".
Proof.
  assert (Dict.wf store_ab.1) as Hwf.
  { unfold Dict.wf. vm_compute. apply NoDup_cons. split.
    - rewrite list_elem_of_singleton. discriminate.
    - apply NoDup_singleton. }
  destruct (tfvars_blocks_follow_mapping store_ab "us-east-1" Hwf)
    as (_ & _ & Hseq).
  apply (Hseq eq_refl [("vpc-c", detail_c)]).
Defined.

(** ** The round trip through the variable file *)

Lemma blocks_set_congr (d : dict vpc_config) (k : string) (c1 c2 : vpc_config) :
  vpc_config_block k c1 = vpc_config_block k c2 ->
  (fun '(vid, config) => vpc_config_block vid config) <$> Dict.set d k c1 =
  (fun '(vid, config) => vpc_config_block vid config) <$> Dict.set d k c2.
Proof.
  intros Hblock. induction d as [|[k' c'] d IH]; simpl.
  - by rewrite Hblock.
  - destruct (decide (k' = k)) as [->|Hne]; rewrite !fmap_cons.
    + by rewrite Hblock.
    + by rewrite IH.
Qed.

Lemma tfvars_content_congr (st : store) (k : string) (d1 d2 : vpc_detail)
    (region : string) :
  vpc_config_block k (config_of d1) = vpc_config_block k (config_of d2) ->
  tfvars_content (merge st [(k, d1)]) region =
  tfvars_content (merge st [(k, d2)]) region.
Proof.
  intros Hblock.
  change (merge st [(k, d1)]) with (merge_one st (k, d1)).
  change (merge st [(k, d2)]) with (merge_one st (k, d2)).
  rewrite !merge_one_eq. unfold tfvars_content.
  by rewrite (blocks_set_congr _ _ _ _ Hblock).
Qed.

(** A tag value holding quotes and a tag key holding quotes give the
    same line of text. *)
Lemma quoted_tags_collide (st : store) (region : string) :
  tfvars_content (merge st quoted_value) region =
  tfvars_content (merge st quoted_key) region.
Proof. by apply tfvars_content_congr. Qed.

(** A tag value with a quote and a line break in it is rendered as the
    two tags it spells out. *)
Lemma injected_tag_line_collides (st : store) (region : string) :
  tfvars_content (merge st injected_line) region =
  tfvars_content (merge st two_tags) region.
Proof. by apply tfvars_content_congr. Qed.

Lemma reload_congr (w : World) (child_module : string) (R1 R2 : dict vpc_detail)
    (region : string) (s : state) :
  (forall st, tfvars_content (merge st R1) region =
              tfvars_content (merge st R2) region) ->
  update_then_reload w child_module R1 region s =
  update_then_reload w child_module R2 region s.
Proof.
  intros Hsame. unfold update_then_reload.
  destruct (load_total w (tfvars_path_of child_module) s) as (st & evs & Hload & _).
  rewrite !run_bind, !(update_run _ _ _ _ _ _ _ Hload).
  by rewrite Hsame.
Qed.

(** C1, at a failing input.  With any decoder in place of [hcl2.loads],
    any prior file and any region: a discovery result whose tag [Name]
    has the value [a" = "b] and one whose tag [Name = "a"] has the value
    [b] are written as the same text, so what is read back cannot be the
    union of the prior mapping with each of them. *)
Theorem round_trip_fails_on_quotes (w : World) (child_module region : string)
    (s : state) :
  ~ (round_trips w child_module quoted_value region s /\
     round_trips w child_module quoted_key region s).
Proof.
  intros [(old1 & s1 & new1 & t1 & Hold1 & Hnew1 & Hunion1)
          (old2 & s2 & new2 & t2 & Hold2 & Hnew2 & Hunion2)].
  rewrite (reload_congr w child_module quoted_value quoted_key) in Hnew1
    by (intros st; apply quoted_tags_collide).
  rewrite Hnew1 in Hnew2. injection Hnew2 as <- <-.
  specialize (Hunion1 "vpc-1"). specialize (Hunion2 "vpc-1").
  rewrite Hunion1 in Hunion2. vm_compute in Hunion2. discriminate Hunion2.
Qed.

(** The value with the line break cannot come back either: its text is
    the text of the two plain tags. *)
Lemma round_trip_fails_on_injected_line (w : World) (child_module region : string)
    (s : state) :
  ~ (round_trips w child_module injected_line region s /\
     round_trips w child_module two_tags region s).
Proof.
  intros [(old1 & s1 & new1 & t1 & Hold1 & Hnew1 & Hunion1)
          (old2 & s2 & new2 & t2 & Hold2 & Hnew2 & Hunion2)].
  rewrite (reload_congr w child_module injected_line two_tags) in Hnew1
    by (intros st; apply injected_tag_line_collides).
  rewrite Hnew1 in Hnew2. injection Hnew2 as <- <-.
  specialize (Hunion1 "vpc-1"). specialize (Hunion2 "vpc-1").
  rewrite Hunion1 in Hunion2. vm_compute in Hunion2. discriminate Hunion2.
Qed.

(** ** The driver *)

Section Uniform.
Context (P : event -> Prop).

Lemma uniform_ret {A} (a : A) : uniform P (mret a).
Proof.
  exists (Ok a), []. split; [done|]. intros [f t]. rewrite run_ret.
  simpl. by rewrite app_nil_r.
Qed.

Lemma uniform_raise {A} (e : exn) : uniform P (raise (A := A) e).
Proof.
  exists (Raise e), []. split; [done|]. intros [f t]. rewrite run_raise.
  simpl. by rewrite app_nil_r.
Qed.

Lemma uniform_lift {A} (r : result A) : uniform P (lift_result r).
Proof.
  exists r, []. split; [done|]. intros [f t]. rewrite run_lift_result.
  simpl. by rewrite app_nil_r.
Qed.

Lemma uniform_emit (e : event) : P e -> uniform P (emit e).
Proof.
  intros He. exists (Ok tt), [e]. split; [by repeat constructor|].
  intros s. apply run_emit.
Qed.

Lemma uniform_bind {A B} (m : M A) (f : A -> M B) :
  uniform P m -> (forall a, uniform P (f a)) -> uniform P (m ≫= f).
Proof.
  intros (r & evs & Hevs & Hm) Hf. destruct r as [a|e].
  - destruct (Hf a) as (r' & evs' & Hevs' & Hfa).
    exists r', (evs ++ evs'). split; [by apply Forall_app|].
    intros s. rewrite run_bind, Hm, Hfa. simpl. by rewrite app_assoc.
  - exists (Raise e), evs. split; [done|].
    intros s. by rewrite run_bind, Hm.
Qed.

Lemma uniform_for_each {A B} (body : B -> A -> M B) (xs : list A) :
  (forall acc x, uniform P (body acc x)) ->
  forall acc, uniform P (for_each body acc xs).
Proof.
  intros Hbody. induction xs as [|x xs IH]; intros acc.
  - rewrite for_each_nil. apply uniform_ret.
  - rewrite for_each_cons. apply uniform_bind; [apply Hbody|apply IH].
Qed.
End Uniform.

Lemma uniform_fetch (w : World) (vpc_ids : list string) (region : string) :
  uniform is_api_call (fetch_vpc_details w vpc_ids region).
Proof.
  unfold fetch_vpc_details.
  apply uniform_bind; [by apply uniform_emit|intros _].
  apply uniform_bind; [apply uniform_lift|intros response].
  apply uniform_bind.
  - apply uniform_for_each. intros acc vpc. unfold fetch_one.
    apply uniform_bind; [by apply uniform_emit|intros _].
    apply uniform_bind; [apply uniform_lift|intros b1].
    apply uniform_bind; [by apply uniform_emit|intros _].
    apply uniform_bind; [apply uniform_lift|intros b2].
    apply uniform_ret.
  - intros details. simpl. case_decide; [apply uniform_ret|apply uniform_raise].
Qed.

(** Discovery gives the same answer wherever it starts. *)
Lemma fetch_anywhere (w : World) (vpc_ids : list string) (region : string)
    (s : state) (r : result (dict vpc_detail)) :
  (fetch_vpc_details w vpc_ids region s).1 = r ->
  exists api, Forall is_api_call api /\
    forall s', fetch_vpc_details w vpc_ids region s' =
               (r, State (files s') (trace s' ++ api)).
Proof.
  destruct (uniform_fetch w vpc_ids region) as (r' & api & Hapi & Hrun).
  intros Hr. rewrite Hrun in Hr. simpl in Hr. subst r'. by exists api.
Qed.

Lemma scaffold_run (base_path : string) (s : state) :
  (create_directory_structure base_path ≫= fun '(parent_module, child_module) =>
     create_terraform_files parent_module child_module) s =
  (Ok tt, State (scaffold_files base_path (files s))
                (trace s ++ scaffold_events base_path)).
Proof.
  unfold create_directory_structure, create_terraform_files. run.
  unfold scaffold_events, scaffold_files, scaffold_writes. simpl.
  by rewrite <-!app_assoc.
Qed.

Lemma run_checked_ok (w : World) (cmd : list string) (s : state) (c : completed) :
  subprocess_run w (trace s) cmd = Ok c -> returncode c = 0 ->
  run_checked w cmd s = (Ok tt, State (files s) (trace s ++ [Run cmd])).
Proof.
  intros Hrun Hrc. unfold run_checked. run. rewrite Hrun. run.
  by rewrite decide_True.
Qed.

Lemma run_checked_fail (w : World) (cmd : list string) (s : state) (c : completed) :
  subprocess_run w (trace s) cmd = Ok c -> returncode c <> 0 ->
  run_checked w cmd s =
    (Raise (LibraryError (called_process_error w cmd (returncode c))),
     State (files s) (trace s ++ [Run cmd])).
Proof.
  intros Hrun Hrc. unfold run_checked. run. rewrite Hrun. run.
  by rewrite decide_False.
Qed.

Lemma import_vpc_run (w : World) (vpc_id : string) (s : state) (c : completed) :
  (forall tr, subprocess_run w tr (import_cmd vpc_id) = Ok c) ->
  import_vpc w vpc_id s =
    (Ok tt, State (files s) (trace s ++ import_events c vpc_id)).
Proof.
  intros Hrun. unfold import_vpc, run_captured, import_events. run.
  rewrite Hrun. run.
  destruct (decide (returncode c = 0)) as [Hrc|Hrc].
  - rewrite decide_False by tauto. run. by rewrite <-!app_assoc.
  - rewrite decide_True by done. run. by rewrite <-!app_assoc.
Qed.

Lemma import_loop_run (w : World) (outcome : string -> completed)
    (vpc_ids : list string) :
  (forall tr id, id ∈ vpc_ids ->
     subprocess_run w tr (import_cmd id) = Ok (outcome id)) ->
  forall s,
    for_each (fun _ vpc_id => import_vpc w vpc_id) tt vpc_ids s =
      (Ok tt, State (files s)
                (trace s ++ (vpc_ids ≫= fun id => import_events (outcome id) id))).
Proof.
  induction vpc_ids as [|id ids IH]; intros Hrun s.
  - rewrite for_each_nil, run_ret. simpl. rewrite app_nil_r. by destruct s.
  - rewrite for_each_cons, run_bind.
    rewrite (import_vpc_run w id s (outcome id)) by (intros tr; apply Hrun; by left).
    rewrite IH by (intros tr id' Hid'; apply Hrun; by right).
    simpl. by rewrite <-app_assoc.
Qed.

(** C2. Suppose discovery succeeds, [terraform init] exits with zero,
    and every import command completes, with whatever exit code.  Then
    the run executes the import of every id, in the order supplied,
    printing the captured output and error of each import that exited
    non-zero, goes on to plan and (if plan exits zero) apply, and its
    exit code is 0 when plan and apply both exit zero and 1 otherwise:
    the outcome of an import has no part in it. *)
Theorem import_failures_do_not_abort (w : World) (base_path region : string)
    (vpc_ids : list string) (s : state) (details : dict vpc_detail)
    (outcome : string -> completed) (cp ca : completed) :
  (fetch_vpc_details w vpc_ids region s).1 = Ok details ->
  (forall tr, exists c, subprocess_run w tr init_cmd = Ok c /\ returncode c = 0) ->
  (forall tr id, id ∈ vpc_ids ->
     subprocess_run w tr (import_cmd id) = Ok (outcome id)) ->
  (forall tr, subprocess_run w tr plan_cmd = Ok cp) ->
  (forall tr, subprocess_run w tr apply_cmd = Ok ca) ->
  exists pre s',
    main_with w base_path region vpc_ids s = (Ok (exit_code_of cp ca), s')
    /\ trace s' = trace s ++ pre
         ++ [Print "Initializing Terraform..."; Run init_cmd]
         ++ (vpc_ids ≫= fun id => import_events (outcome id) id)
         ++ finish_events w cp ca
    /\ Forall (fun e => ~ is_run e) pre.
Proof.
  intros Hfetch Hinit Himport Hplan Happly.
  destruct (fetch_anywhere _ _ _ _ _ Hfetch) as (api & Hapi & Hfetch').
  destruct (main_with w base_path region vpc_ids s) as [r s'] eqn:Hrun.
  unfold main_with, create_directory_structure, create_terraform_files,
    main_body in Hrun.
  run_in Hrun. rewrite Hfetch' in Hrun. run_in Hrun.
  match type of Hrun with
  | context [create_or_update_tfvars _ ?c _ _ ?s0] =>
      destruct (load_total w (tfvars_path_of c) s0) as (st & evs & Hload & Hevs);
      rewrite (update_run _ _ _ _ _ _ _ Hload) in Hrun
  end.
  run_in Hrun.
  rewrite (run_read_file_Some _ _ _ (lookup_insert_eq _ _ _)) in Hrun.
  run_in Hrun.
  match type of Hrun with
  | context [run_checked w init_cmd ?s0] =>
      destruct (Hinit (trace s0)) as (ci & Hci & Hrc);
      rewrite (run_checked_ok w init_cmd s0 ci Hci Hrc) in Hrun
  end.
  run_in Hrun.
  rewrite (import_loop_run w outcome vpc_ids Himport) in Hrun. run_in Hrun.
  set (pre := scaffold_events base_path
       ++ Print ("Fetching details for VPCs: " +:+ join ", " vpc_ids +:+ "...")
       :: api ++ evs
       ++ [WriteFile (tfvars_path_of (child_of base_path))
             (tfvars_content (merge st details) region);
           ReadFile (tfvars_path_of (child_of base_path));
           Print ("terraform.tfvars content:" +:+ nl +:+
                  tfvars_content (merge st details) region);
           Chdir (child_of base_path)]).
  assert (Forall (fun e => ~ is_run e) pre) as Hpre.
  { unfold pre, scaffold_events. simpl. rewrite !Forall_cons, !Forall_app.
    simpl. split_and!; try tauto.
    - eapply Forall_impl; [exact Hapi|]. intros []; simpl; tauto.
    - eapply Forall_impl; [exact Hevs|]. intros []; simpl; tauto.
    - rewrite !Forall_cons. simpl. split_and!; try tauto. constructor. }
  destruct (decide (returncode cp = 0)) as [Hcp|Hcp].
  - match type of Hrun with
    | context [run_checked w plan_cmd ?s0] =>
        rewrite (run_checked_ok w plan_cmd s0 cp (Hplan _) Hcp) in Hrun
    end.
    run_in Hrun.
    destruct (decide (returncode ca = 0)) as [Hca|Hca].
    + match type of Hrun with
      | context [run_checked w apply_cmd ?s0] =>
          rewrite (run_checked_ok w apply_cmd s0 ca (Happly _) Hca) in Hrun
      end.
      run_in Hrun. injection Hrun as <- <-. exists pre. eexists. split_and!.
      * unfold exit_code_of. by rewrite decide_True.
      * cbn [trace]. unfold pre, finish_events, scaffold_events, scaffold_writes,
          child_of, parent_of.
        rewrite !decide_True by done. simpl. rewrite <-!app_assoc. simpl.
        reflexivity.
      * done.
    + match type of Hrun with
      | context [run_checked w apply_cmd ?s0] =>
          rewrite (run_checked_fail w apply_cmd s0 ca (Happly _) Hca) in Hrun
      end.
      run_in Hrun. injection Hrun as <- <-. exists pre. eexists. split_and!.
      * unfold exit_code_of. rewrite decide_False; [done|]. by intros [_ ?].
      * cbn [trace]. unfold pre, finish_events, scaffold_events, scaffold_writes,
          child_of, parent_of.
        rewrite decide_True, decide_False by done. simpl. rewrite <-!app_assoc. simpl.
        reflexivity.
      * done.
  - match type of Hrun with
    | context [run_checked w plan_cmd ?s0] =>
        rewrite (run_checked_fail w plan_cmd s0 cp (Hplan _) Hcp) in Hrun
    end.
    run_in Hrun. injection Hrun as <- <-. exists pre. eexists. split_and!.
    + unfold exit_code_of. rewrite decide_False; [done|]. by intros [? _].
    + cbn [trace]. unfold pre, finish_events, scaffold_events, scaffold_writes,
        child_of, parent_of.
      rewrite decide_False by done. simpl. rewrite <-!app_assoc. simpl.
      reflexivity.
    + done.
Qed.

Lemma import_failures_do_not_abort_witness :
  exists pre s',
    main_with scenario_world "/srv" "us-east-1" ["vpc-1"; "vpc-2"] initial_state
      = (Ok 0, s')
    /\ trace s' = pre ++
         [Print "Initializing Terraform..."; Run init_cmd;
          Print "Importing VPC vpc-1..."; Run (import_cmd "vpc-1");
          Print "Import Output for vpc-1: ";
          Print "Import Error for vpc-1: Error: Resource already managed by Terraform";
          Print "Importing VPC vpc-2..."; Run (import_cmd "vpc-2");
          Print "Import successful for vpc-2!";
          Print "Planning changes..."; Run plan_cmd;
          Print "Applying changes..."; Run apply_cmd;
          Print "VPC imports completed successfully!"].
Proof.
  destruct (import_failures_do_not_abort scenario_world "/srv" "us-east-1"
              ["vpc-1"; "vpc-2"] initial_state scenario_details scenario_outcome
              (Completed 0 "" "") (Completed 0 "" ""))
    as (pre & s' & Hrun & Htrace & _).
  - reflexivity.
  - intros tr. exists (Completed 0 "" ""). split; reflexivity.
  - intros tr id Hin.
    apply elem_of_cons in Hin as [->|Hin]; [reflexivity|].
    apply list_elem_of_singleton in Hin as ->. reflexivity.
  - reflexivity.
  - reflexivity.
  - exists pre, s'. split; [exact Hrun|]. rewrite Htrace. reflexivity.
Defined.

(** ** Discovery failure and the files on disk *)

(** What [os.path.join] puts in front of a relative name. *)
Lemma path_join_relative (a b : string) :
  starts_with_slash b = false ->
  path_join a b =
    (if bool_decide (a = EmptyString) || ends_with_slash a then a else a +:+ "/")
    +:+ b.
Proof.
  intros Hb. unfold path_join. rewrite Hb.
  destruct (bool_decide (a = EmptyString) || ends_with_slash a); [done|].
  by rewrite string_app_assoc.
Qed.

Lemma ends_with_slash_app (a b : string) :
  b <> EmptyString -> ends_with_slash (a +:+ b) = ends_with_slash b.
Proof.
  intros Hb. induction a as [|c a IH]; [done|].
  change (String c a +:+ b) with (String c (a +:+ b)).
  destruct (a +:+ b) as [|c' r] eqn:Hab.
  - destruct a; [|discriminate Hab]. by destruct b.
  - exact IH.
Qed.

Lemma app_not_empty (a b : string) : b <> EmptyString -> a +:+ b <> EmptyString.
Proof. intros Hb. destruct a; [done|discriminate]. Qed.

(** A file of a module directory of the script's base directory. *)
Lemma path_join_twice (base_path d f : string) :
  d <> EmptyString ->
  starts_with_slash d = false -> ends_with_slash d = false ->
  starts_with_slash f = false ->
  path_join (path_join base_path d) f =
    (if bool_decide (base_path = EmptyString) || ends_with_slash base_path
     then base_path else base_path +:+ "/")
    +:+ (d +:+ "/" +:+ f).
Proof.
  intros Hd Hsd Hed Hsf.
  rewrite (path_join_relative base_path d Hsd).
  set (pre := if bool_decide (base_path = EmptyString) || ends_with_slash base_path
              then base_path else base_path +:+ "/").
  rewrite (path_join_relative (pre +:+ d) f Hsf).
  rewrite ends_with_slash_app, Hed by done.
  rewrite bool_decide_eq_false_2 by (by apply app_not_empty).
  simpl. by rewrite !string_app_assoc.
Qed.

Lemma path_join_ne (base_path d1 f1 d2 f2 : string) :
  d1 <> EmptyString -> d2 <> EmptyString ->
  starts_with_slash d1 = false -> ends_with_slash d1 = false ->
  starts_with_slash d2 = false -> ends_with_slash d2 = false ->
  starts_with_slash f1 = false -> starts_with_slash f2 = false ->
  d1 +:+ "/" +:+ f1 <> d2 +:+ "/" +:+ f2 ->
  path_join (path_join base_path d1) f1 <> path_join (path_join base_path d2) f2.
Proof.
  intros ? ? ? ? ? ? ? ? Hne Heq. apply Hne.
  rewrite !path_join_twice in Heq by done.
  by apply (inj (String.app _)) in Heq.
Qed.

Ltac module_paths_differ :=
  apply path_join_ne; try done; intros H; vm_compute in H; discriminate H.

Lemma scaffold_keeps_tfvars (base_path : string) (fs : gmap string string) :
  scaffold_files base_path fs !! tfvars_path_of (child_of base_path) =
  fs !! tfvars_path_of (child_of base_path).
Proof.
  unfold scaffold_files, scaffold_writes, tfvars_path_of, child_of, parent_of.
  simpl. rewrite !lookup_insert_ne; [done|..]; module_paths_differ.
Qed.

(** C7, counterexample.  With the compiled-in ids and a provider that
    knows the first of them only, discovery raises and the run exits
    with code 1; by then [Parent_Module/main.tf], absent before, has
    been written, and it was written before the provider was queried. *)
Lemma discovery_failure_after_scaffold :
  exists s' before after,
    main only_first_found "/srv" initial_state = (Ok 1, s')
    /\ (fetch_vpc_details only_first_found
          ["vpc-0e4573ffe1ccab336"; "vpc-07bd81c8b6c7c9b6d"] "us-east-1"
          initial_state).1
       = Raise (Exception "VPCs not found: vpc-07bd81c8b6c7c9b6d")
    /\ files initial_state !! "/srv/Parent_Module/main.tf" = None
    /\ files s' !! "/srv/Parent_Module/main.tf" = Some parent_main_tf
    /\ trace s' = before ++
         DescribeVpcs "us-east-1" ["vpc-0e4573ffe1ccab336"; "vpc-07bd81c8b6c7c9b6d"]
         :: after
    /\ WriteFile "/srv/Parent_Module/main.tf" parent_main_tf ∈ before.
Proof.
  eexists _,
    [Makedirs "/srv/Parent_Module"; Makedirs "/srv/Child_Module";
     WriteFile "/srv/Parent_Module/main.tf" parent_main_tf;
     WriteFile "/srv/Parent_Module/variables.tf" parent_variables_tf;
     WriteFile "/srv/Child_Module/main.tf" child_main_tf;
     WriteFile "/srv/Child_Module/variables.tf" child_variables_tf;
     WriteFile "/srv/Child_Module/backend.tf" backend_tf;
     Print "Fetching details for VPCs: vpc-0e4573ffe1ccab336, vpc-07bd81c8b6c7c9b6d..."],
    _.
  split_and!.
  - vm_compute. reflexivity.
  - vm_compute. reflexivity.
  - reflexivity.
  - vm_compute. reflexivity.
  - vm_compute. reflexivity.
  - right. right. left.
Qed.

(** C7, as the code has it.  When discovery raises, the run prints the
    error and exits with code 1 without running any command and without
    touching the variable file; the two scaffold directories and the
    five scaffold files have been written by then, before the provider
    was queried, and they are the only files written. *)
Theorem discovery_failure_keeps_tfvars (w : World) (base_path region : string)
    (vpc_ids : list string) (s : state) (e : exn) :
  (fetch_vpc_details w vpc_ids region s).1 = Raise e ->
  exists api s',
    main_with w base_path region vpc_ids s = (Ok 1, s')
    /\ files s' = scaffold_files base_path (files s)
    /\ files s' !! tfvars_path_of (child_of base_path) =
       files s !! tfvars_path_of (child_of base_path)
    /\ trace s' = trace s ++ scaffold_events base_path
         ++ Print ("Fetching details for VPCs: " +:+ join ", " vpc_ids +:+ "...")
         :: api ++ [Print ("Error: " +:+ str_exn e)]
    /\ Forall is_api_call api.
Proof.
  intros Hfetch.
  destruct (fetch_anywhere _ _ _ _ _ Hfetch) as (api & Hapi & Hfetch').
  destruct (main_with w base_path region vpc_ids s) as [r s'] eqn:Hrun.
  unfold main_with, create_directory_structure, create_terraform_files,
    main_body in Hrun.
  run_in Hrun. rewrite Hfetch' in Hrun. run_in Hrun.
  injection Hrun as <- <-. exists api. eexists. split_and!.
  - reflexivity.
  - reflexivity.
  - cbn [files]. apply (scaffold_keeps_tfvars base_path (files s)).
  - cbn [trace]. unfold scaffold_events, scaffold_writes, child_of, parent_of.
    simpl. rewrite <-!app_assoc. simpl. reflexivity.
  - done.
Qed.

Lemma discovery_failure_keeps_tfvars_witness :
  exists api s',
    main only_first_found "/srv" initial_state = (Ok 1, s')
    /\ files s' !! "/srv/Child_Module/terraform.tfvars" = None
    /\ Forall is_api_call api.
Proof.
  destruct (discovery_failure_keeps_tfvars only_first_found "/srv" "us-east-1"
              ["vpc-0e4573ffe1ccab336"; "vpc-07bd81c8b6c7c9b6d"] initial_state
              (Exception "VPCs not found: vpc-07bd81c8b6c7c9b6d"))
    as (api & s' & Hrun & _ & Hkeep & _ & Hapi).
  - vm_compute. reflexivity.
  - exists api, s'. split_and!; [exact Hrun| |exact Hapi].
    rewrite <-(lookup_empty (M := gmap string) (A := string)
                 "/srv/Child_Module/terraform.tfvars").
    exact Hkeep.
Defined.

(** * Further properties *)

(** ** The merge loop *)

Lemma dict_set_same {V} (d : dict V) (k : string) (v : V) :
  Dict.get d k = Some v -> Dict.set d k v = d.
Proof.
  induction d as [|[k' v'] d IH]; simpl; [done|].
  destruct (decide (k' = k)) as [->|Hne].
  - by intros [= ->].
  - intros Hget. by rewrite IH.
Qed.

Lemma dict_set_notin {V} (d : dict V) (k : string) (v : V) :
  k ∉ Dict.keys d -> Dict.set d k v = d ++ [(k, v)].
Proof.
  unfold Dict.keys. induction d as [|[k' v'] d IH]; simpl; [done|].
  intros [Hne Hnin]%not_elem_of_cons.
  rewrite decide_False by done. by rewrite IH.
Qed.

Lemma dict_get_elem {V} (d : dict V) (k : string) (v : V) :
  Dict.wf d -> (k, v) ∈ d -> Dict.get d k = Some v.
Proof.
  unfold Dict.wf, Dict.keys. induction d as [|[k' v'] d IH]; simpl.
  - intros _ Hin. by apply elem_of_nil in Hin.
  - intros [Hk Hwf]%NoDup_cons [Heq|Hin]%elem_of_cons.
    + injection Heq as -> ->. by rewrite decide_True.
    + destruct (decide (k' = k)) as [->|Hne]; [|by apply IH].
      exfalso. apply Hk. apply list_elem_of_fmap. by exists (k, v).
Qed.

Lemma merge_absorbs (R : dict vpc_detail) (st : store) :
  (forall k d, (k, d) ∈ R ->
     Dict.get st.1 k = Some (config_of d) /\ k ∈ st.2) ->
  merge st R = st.
Proof.
  induction R as [|[k d] R IH]; intros Hin; [done|].
  rewrite merge_cons.
  destruct (Hin k d) as [Hget Hk]; [by left|].
  assert (merge_one st (k, d) = st) as ->.
  { rewrite merge_one_eq, (dict_set_same _ _ _ Hget), decide_True by done.
    by destruct st. }
  apply IH. intros k' d' Hin'. apply Hin. by right.
Qed.

(** X1. Merging the same discovery result a second time changes
    nothing: neither the mapping, nor the order of its entries, nor the
    id sequence. *)
Theorem merge_idempotent (st : store) (R : dict vpc_detail) :
  Dict.wf R -> merge (merge st R) R = merge st R.
Proof.
  intros Hwf. apply merge_absorbs. intros k d Hin. split.
  - apply merge_get_new; [done|]. by apply dict_get_elem.
  - apply merge_ids_elem. right. apply list_elem_of_fmap. by exists (k, d).
Qed.

Lemma merge_idempotent_witness :
  merge (merge store_ab [("vpc-a", detail_c)]) [("vpc-a", detail_c)] =
  ([("vpc-a", cfg_c); ("vpc-b", cfg_b)], ["vpc-a"; "vpc-b"]).
Proof.
  rewrite (merge_idempotent store_ab [("vpc-a", detail_c)]).
  - reflexivity.
  - unfold Dict.wf. vm_compute. apply NoDup_singleton.
Defined.

(** X2. An id that the discovery result does not hold keeps its record
    as it was and keeps its membership of the id sequence: merging
    removes nothing and prunes no stale entry. *)
Theorem merge_retains_unseen (st : store) (R : dict vpc_detail) (id : string) :
  id ∉ Dict.keys R ->
  Dict.get (merge st R).1 id = Dict.get st.1 id
  /\ (id ∈ (merge st R).2 <-> id ∈ st.2)
  /\ (id ∈ Dict.keys (merge st R).1 <-> id ∈ Dict.keys st.1).
Proof.
  intros Hnin. split_and!.
  - by apply merge_get_other.
  - rewrite merge_ids_elem. tauto.
  - rewrite merge_keys. tauto.
Qed.

Lemma merge_retains_unseen_witness :
  Dict.get (merge store_ab [("vpc-c", detail_c)]).1 "vpc-b" = Some cfg_b.
Proof.
  destruct (merge_retains_unseen store_ab [("vpc-c", detail_c)] "vpc-b")
    as (Hget & _ & _).
  - change (Dict.keys [("vpc-c", detail_c)]) with ["vpc-c"].
    rewrite list_elem_of_singleton. discriminate.
  - rewrite Hget. reflexivity.
Defined.

Lemma merge_appends (R : dict vpc_detail) (st : store) :
  Dict.wf R ->
  Dict.keys st.1 = st.2 ->
  (forall k, k ∈ Dict.keys R -> k ∉ st.2) ->
  merge st R =
    (st.1 ++ ((fun '(k, d) => (k, config_of d)) <$> R), st.2 ++ Dict.keys R).
Proof.
  revert st. induction R as [|[k d] R IH]; intros st Hwf Hal Hnew.
  - simpl. change (Dict.keys (@nil (string * vpc_detail))) with (@nil string).
    rewrite !app_nil_r. by destruct st.
  - unfold Dict.wf in Hwf.
    change (Dict.keys ((k, d) :: R)) with (k :: Dict.keys R) in *.
    apply NoDup_cons in Hwf as [Hk Hwf].
    assert (k ∉ st.2) as Hkst by (apply Hnew; by left).
    rewrite merge_cons, merge_one_eq, decide_False by done.
    rewrite dict_set_notin by (by rewrite Hal).
    rewrite IH; cbn [fst snd].
    + rewrite fmap_cons, <-!app_assoc. done.
    + done.
    + unfold Dict.keys. rewrite fmap_app. cbn [fmap list_fmap fst]. by rewrite <-Hal.
    + intros k' Hk'. rewrite not_elem_of_app, list_elem_of_singleton. split.
      * apply Hnew. by right.
      * by intros ->.
Qed.

(** X3. On a first run, when no prior store is loaded, the merged store
    holds the discovered records in discovery order, and its id sequence
    is the list of discovered ids in that same order. *)
Theorem merge_into_empty_store (R : dict vpc_detail) :
  Dict.wf R ->
  merge empty_store R = ((fun '(k, d) => (k, config_of d)) <$> R, Dict.keys R).
Proof.
  intros Hwf. rewrite merge_appends; [done|done|done|].
  intros k _. apply not_elem_of_nil.
Qed.

Lemma merge_into_empty_store_witness :
  merge empty_store scenario_details =
  ([("vpc-1", VpcConfig "10.0.0.0/16" true true [("Name", "vpc-1")]);
    ("vpc-2", VpcConfig "10.0.0.0/16" true true [("Name", "vpc-2")])],
   ["vpc-1"; "vpc-2"]).
Proof.
  rewrite (merge_into_empty_store scenario_details).
  - reflexivity.
  - unfold Dict.wf. vm_compute. apply NoDup_cons. split.
    + rewrite list_elem_of_singleton. discriminate.
    + apply NoDup_singleton.
Defined.

(** ** Discovery *)

Lemma fetch_loop_collect (w : World) (region : string)
    (attr : string -> Attribute -> bool) (response : list Vpc) :
  (forall vpc a, vpc ∈ response ->
     describe_vpc_attribute w region (VpcId vpc) a = Ok (attr (VpcId vpc) a)) ->
  forall (acc : dict vpc_detail) (s : state),
    for_each (fetch_one w region) acc response s =
      (Ok (collect attr acc response),
       State (files s) (trace s ++ attribute_lookups region response)).
Proof.
  induction response as [|vpc response IH]; intros Hattr acc s.
  - rewrite for_each_nil, run_ret. unfold attribute_lookups. simpl.
    rewrite app_nil_r. by destruct s.
  - rewrite for_each_cons, run_bind.
    rewrite (fetch_one_run w region acc vpc s
               (attr (VpcId vpc) enableDnsSupport)
               (attr (VpcId vpc) enableDnsHostnames))
      by (apply Hattr; by left).
    rewrite IH by (intros v a Hv; apply Hattr; by right).
    cbn [files trace]. rewrite <-app_assoc. done.
Qed.

Lemma collect_keys (attr : string -> Attribute -> bool) (response : list Vpc)
    (acc : dict vpc_detail) (id : string) :
  id ∈ Dict.keys (collect attr acc response) <->
  id ∈ Dict.keys acc \/ id ∈ VpcId <$> response.
Proof.
  revert acc. induction response as [|vpc response IH]; intros acc.
  - rewrite fmap_nil, elem_of_nil. simpl. tauto.
  - change (collect attr acc (vpc :: response))
      with (collect attr (Dict.set acc (VpcId vpc) (detail_of attr vpc)) response).
    rewrite IH, dict_elem_of_keys_set, fmap_cons, elem_of_cons. tauto.
Qed.

Lemma collect_wf (attr : string -> Attribute -> bool) (response : list Vpc)
    (acc : dict vpc_detail) :
  Dict.wf acc -> Dict.wf (collect attr acc response).
Proof.
  revert acc. induction response as [|vpc response IH]; intros acc Hwf; [done|].
  apply IH. by apply dict_wf_set.
Qed.

Lemma collect_distinct (attr : string -> Attribute -> bool) (response : list Vpc)
    (acc : dict vpc_detail) :
  NoDup (VpcId <$> response) ->
  (forall id, id ∈ VpcId <$> response -> id ∉ Dict.keys acc) ->
  collect attr acc response =
    acc ++ ((fun vpc => (VpcId vpc, detail_of attr vpc)) <$> response).
Proof.
  revert acc. induction response as [|vpc response IH]; intros acc Hnd Hnew.
  - simpl. by rewrite app_nil_r.
  - rewrite fmap_cons in Hnd. apply NoDup_cons in Hnd as [Hv Hnd].
    change (collect attr acc (vpc :: response))
      with (collect attr (Dict.set acc (VpcId vpc) (detail_of attr vpc)) response).
    rewrite dict_set_notin by (apply Hnew; rewrite fmap_cons; by left).
    rewrite IH; [|done|].
    + rewrite fmap_cons, <-app_assoc. done.
    + intros id Hid. unfold Dict.keys. rewrite fmap_app, not_elem_of_app.
      split.
      * apply Hnew. rewrite fmap_cons. by right.
      * cbn [fmap list_fmap fst]. rewrite list_elem_of_singleton. by intros ->.
Qed.

(** X4. When the batched query and the attribute lookups answer and
    every requested id is among the resources returned, discovery
    returns one record per returned resource, requested or not, after
    one query and two lookups per resource and nothing else; when the
    returned ids are distinct the records are in the order of the
    response, each holding the resource's CIDR, its tags and the two
    looked-up flags. *)
Theorem discovery_returns_records (w : World) (vpc_ids : list string)
    (region : string) (s : state) (response : list Vpc)
    (attr : string -> Attribute -> bool) :
  describe_vpcs w region vpc_ids = Ok response ->
  (forall vpc a, vpc ∈ response ->
     describe_vpc_attribute w region (VpcId vpc) a = Ok (attr (VpcId vpc) a)) ->
  (forall id, id ∈ vpc_ids -> id ∈ VpcId <$> response) ->
  fetch_vpc_details w vpc_ids region s =
    (Ok (collect attr [] response),
     State (files s)
       (trace s ++ DescribeVpcs region vpc_ids :: attribute_lookups region response))
  /\ Dict.wf (collect attr [] response)
  /\ (forall id, id ∈ Dict.keys (collect attr [] response) <->
                 id ∈ VpcId <$> response)
  /\ (NoDup (VpcId <$> response) ->
      collect attr [] response =
        (fun vpc => (VpcId vpc, detail_of attr vpc)) <$> response).
Proof.
  intros Hquery Hattr Hall.
  assert (forall id, id ∈ Dict.keys (collect attr [] response) <->
                     id ∈ VpcId <$> response) as Hkeys.
  { intros id. rewrite collect_keys.
    change (Dict.keys (@nil (string * vpc_detail))) with (@nil string).
    rewrite elem_of_nil. tauto. }
  split_and!.
  - unfold fetch_vpc_details. run. rewrite Hquery. run.
    rewrite (fetch_loop_collect w region attr response Hattr). simpl.
    rewrite decide_True.
    + run. by rewrite <-app_assoc.
    + destruct (set_difference vpc_ids (Dict.keys (collect attr [] response)))
        as [|x l] eqn:Hdiff; [done|].
      assert (x ∈ set_difference vpc_ids (Dict.keys (collect attr [] response)))
        as Hx by (rewrite Hdiff; by left).
      apply set_difference_elem in Hx as [Hx Hnx].
      exfalso. apply Hnx, Hkeys, Hall, Hx.
  - apply collect_wf. unfold Dict.wf. apply NoDup_nil_2.
  - done.
  - intros Hnd. rewrite collect_distinct; [done|done|].
    intros id _. apply not_elem_of_nil.
Qed.

Lemma discovery_returns_records_witness :
  (fetch_vpc_details scenario_world ["vpc-2"] "us-east-1" initial_state).1 =
  Ok scenario_details.
Proof.
  destruct (discovery_returns_records scenario_world ["vpc-2"] "us-east-1"
              initial_state [example_vpc "vpc-1"; example_vpc "vpc-2"]
              (fun _ _ => true)) as (Hrun & _ & _ & _).
  - reflexivity.
  - intros vpc a _. reflexivity.
  - intros id Hid. apply list_elem_of_singleton in Hid as ->.
    right. by left.
  - rewrite Hrun. reflexivity.
Defined.

(** X5. When the batched query raises, discovery raises the same error
    at once: no attribute lookup is made and no missing id is
    reported. *)
Theorem discovery_query_error_propagates (w : World) (vpc_ids : list string)
    (region : string) (s : state) (e : exn) :
  describe_vpcs w region vpc_ids = Raise e ->
  fetch_vpc_details w vpc_ids region s =
    (Raise e, State (files s) (trace s ++ [DescribeVpcs region vpc_ids])).
Proof.
  intros Hquery. unfold fetch_vpc_details. run. by rewrite Hquery.
Qed.

Lemma discovery_query_error_propagates_witness :
  fetch_vpc_details query_refused ["vpc-1"] "us-east-1" initial_state =
  (Raise (LibraryError "InvalidVpcID.NotFound"),
   State ∅ [DescribeVpcs "us-east-1" ["vpc-1"]]).
Proof.
  apply (discovery_query_error_propagates query_refused ["vpc-1"] "us-east-1"
           initial_state).
  reflexivity.
Defined.

Lemma for_each_app {A B} (body : B -> A -> M B) (l1 l2 : list A) (acc : B)
    (s : state) :
  for_each body acc (l1 ++ l2) s =
  (for_each body acc l1 ≫= fun acc' => for_each body acc' l2) s.
Proof.
  revert acc s. induction l1 as [|x l1 IH]; intros acc s.
  - by rewrite for_each_nil, run_bind, run_ret.
  - change ((x :: l1) ++ l2) with (x :: (l1 ++ l2)).
    rewrite !for_each_cons, !run_bind.
    destruct (body acc x s) as [[acc'|e] s1]; [|done].
    by rewrite IH, run_bind.
Qed.

(** X6. When an attribute lookup raises for a returned resource,
    discovery raises that error after the lookups of the resources
    before it: the remaining resources are not looked up and the check
    for missing ids is not reached, so no missing id is reported even
    if some are missing. *)
Theorem discovery_lookup_error_propagates (w : World) (vpc_ids : list string)
    (region : string) (s : state) (before after : list Vpc) (vpc : Vpc)
    (attr : string -> Attribute -> bool) (e : exn) :
  describe_vpcs w region vpc_ids = Ok (before ++ vpc :: after) ->
  (forall v a, v ∈ before ->
     describe_vpc_attribute w region (VpcId v) a = Ok (attr (VpcId v) a)) ->
  describe_vpc_attribute w region (VpcId vpc) enableDnsSupport = Raise e ->
  fetch_vpc_details w vpc_ids region s =
    (Raise e,
     State (files s)
       (trace s ++ DescribeVpcs region vpc_ids :: attribute_lookups region before
        ++ [DescribeVpcAttribute region (VpcId vpc) enableDnsSupport])).
Proof.
  intros Hquery Hbefore Hraise. unfold fetch_vpc_details. run.
  rewrite Hquery. run. rewrite for_each_app, run_bind.
  rewrite (fetch_loop_collect w region attr before Hbefore).
  rewrite for_each_cons, run_bind. unfold fetch_one at 1. run.
  rewrite Hraise. run. by rewrite <-!app_assoc.
Qed.

Lemma discovery_lookup_error_propagates_witness :
  fetch_vpc_details lookup_refused ["vpc-1"; "vpc-2"; "vpc-3"] "us-east-1"
    initial_state =
  (Raise (LibraryError "UnauthorizedOperation"),
   State ∅
     [DescribeVpcs "us-east-1" ["vpc-1"; "vpc-2"; "vpc-3"];
      DescribeVpcAttribute "us-east-1" "vpc-1" enableDnsSupport;
      DescribeVpcAttribute "us-east-1" "vpc-1" enableDnsHostnames;
      DescribeVpcAttribute "us-east-1" "vpc-2" enableDnsSupport]).
Proof.
  apply (discovery_lookup_error_propagates lookup_refused
           ["vpc-1"; "vpc-2"; "vpc-3"] "us-east-1" initial_state
           [example_vpc "vpc-1"] [] (example_vpc "vpc-2") (fun _ _ => true)).
  - reflexivity.
  - intros v a Hv. apply list_elem_of_singleton in Hv as ->. reflexivity.
  - reflexivity.
Defined.





(** ** The scaffold and the variable file *)

Lemma scaffold_files_twice (base_path : string) (fs : gmap string string) :
  scaffold_files base_path (scaffold_files base_path fs) =
  scaffold_files base_path fs.
Proof.
  apply map_eq. intros i. unfold scaffold_files, scaffold_writes. simpl.
  rewrite !lookup_insert. repeat case_decide; done.
Qed.

Lemma scaffold_files_lookup (base_path : string) (fs : gmap string string)
    (path content : string) :
  (path, content) ∈ scaffold_writes base_path ->
  scaffold_files base_path fs !! path = Some content.
Proof.
  unfold scaffold_files, scaffold_writes, child_of, parent_of. simpl.
  rewrite !elem_of_cons, elem_of_nil.
  intros [H|[H|[H|[H|[H|[]]]]]]; injection H as -> ->;
    repeat first
      [ apply lookup_insert_eq
      | rewrite lookup_insert_ne
          by module_paths_differ ].
Qed.

Lemma scaffold_files_other (base_path : string) (fs : gmap string string)
    (p : string) :
  p ∉ (scaffold_writes base_path).*1 ->
  scaffold_files base_path fs !! p = fs !! p.
Proof.
  unfold scaffold_files, scaffold_writes. simpl.
  rewrite !not_elem_of_cons. intros (? & ? & ? & ? & ? & _).
  by rewrite !lookup_insert_ne.
Qed.

(** X8. The scaffold step cannot fail in itself; it leaves each of the
    five scaffold files with its fixed content whatever was on disk, it
    changes no other file, and running it again changes nothing. *)
Theorem scaffold_overwrite (base_path : string) (s : state) :
  exists s1 s2,
    scaffold_step base_path s = (Ok tt, s1)
    /\ scaffold_step base_path s1 = (Ok tt, s2)
    /\ files s2 = files s1
    /\ (forall path content,
          (path, content) ∈ scaffold_writes base_path ->
          files s1 !! path = Some content)
    /\ (forall p, p ∉ (scaffold_writes base_path).*1 ->
          files s1 !! p = files s !! p).
Proof.
  eexists _, _. unfold scaffold_step. split_and!.
  - apply scaffold_run.
  - apply scaffold_run.
  - cbn [files]. apply scaffold_files_twice.
  - intros path content Hin. cbn [files]. by apply scaffold_files_lookup.
  - intros p Hp. cbn [files]. by apply scaffold_files_other.
Qed.

(** X9. A variable file that decodes is loaded as it is: the two blocks
    as decoded, a missing block as empty, whatever [aws_region] it
    records; the file is read once, nothing is printed and nothing is
    written. *)
Theorem load_takes_blocks_as_decoded (w : World) (path content : string)
    (s : state) (region : option string) (ids : option (list string))
    (configs : option (dict vpc_config)) :
  files s !! path = Some content ->
  hcl2_loads w content = Ok (Parsed region ids configs) ->
  read_existing_tfvars w path s =
    (Ok (default [] configs, default [] ids),
     State (files s) (trace s ++ [ReadFile path])).
Proof.
  intros Hfile Hdec.
  by rewrite (load_decoded w path content (Parsed region ids configs)).
Qed.

Lemma load_takes_blocks_as_decoded_witness :
  read_existing_tfvars (example_world [] ids_only_decoder all_succeed)
    "/srv/Child_Module/terraform.tfvars" ids_only_state =
  (Ok ([], ["vpc-1"]),
   State (files ids_only_state) [ReadFile "/srv/Child_Module/terraform.tfvars"]).
Proof.
  apply (load_takes_blocks_as_decoded
           (example_world [] ids_only_decoder all_succeed)
           "/srv/Child_Module/terraform.tfvars" ids_only_text ids_only_state
           None (Some ["vpc-1"]) None).
  - reflexivity.
  - reflexivity.
Defined.

Lemma load_depends_on_files (w : World) (path : string)
    (fs : gmap string string) (t1 t2 : list event) :
  (read_existing_tfvars w path (State fs t1)).1 =
  (read_existing_tfvars w path (State fs t2)).1.
Proof.
  destruct (fs !! path) as [content|] eqn:Hfile.
  - destruct (hcl2_loads w content) as [p|e] eqn:Hdec.
    + by rewrite !(load_decoded w path content p).
    + by rewrite !(load_unparseable w path content e).
  - by rewrite !load_absent.
Qed.

(** X10. When the variable file is absent, or is there but cannot be
    decoded, the update completes: it writes [terraform.tfvars] in the
    child module with the rendering of the discovered records alone
    (whatever the undecodable file held is gone), it touches no other
    file, and that write is the last thing it does. *)
Theorem update_without_prior_store (w : World) (child_module : string)
    (R : dict vpc_detail) (region : string) (s : state) :
  (files s !! tfvars_path_of child_module = None \/
   exists content e,
     files s !! tfvars_path_of child_module = Some content /\
     hcl2_loads w content = Raise e) ->
  exists s',
    create_or_update_tfvars w child_module R region s = (Ok tt, s')
    /\ files s' =
         <[tfvars_path_of child_module :=
             tfvars_content (merge empty_store R) region]> (files s)
    /\ (forall p, p <> tfvars_path_of child_module ->
          files s' !! p = files s !! p)
    /\ last (trace s') =
         Some (WriteFile (tfvars_path_of child_module)
                 (tfvars_content (merge empty_store R) region)).
Proof.
  intros [Hnone|(content & e & Hfile & Hraise)].
  - eexists. split_and!.
    + apply update_run. by apply load_absent.
    + done.
    + intros p Hp. cbn [files]. by rewrite lookup_insert_ne.
    + cbn [trace]. by rewrite last_snoc.
  - eexists. split_and!.
    + apply update_run. by apply (load_unparseable w _ content e).
    + done.
    + intros p Hp. cbn [files]. by rewrite lookup_insert_ne.
    + cbn [trace]. by rewrite last_snoc.
Qed.

Lemma update_without_prior_store_witness :
  exists s',
    create_or_update_tfvars (example_world [] no_decoder all_succeed)
      "/srv/Child_Module" [("vpc-c", detail_c)] "us-east-1" ids_only_state
      = (Ok tt, s')
    /\ files s' !! "/srv/Child_Module/terraform.tfvars" =
         Some (tfvars_content ([("vpc-c", cfg_c)], ["vpc-c"]) "us-east-1").
Proof.
  destruct (update_without_prior_store (example_world [] no_decoder all_succeed)
              "/srv/Child_Module" [("vpc-c", detail_c)] "us-east-1" ids_only_state)
    as (s' & Hrun & Hfiles & _).
  - right. exists ids_only_text, (LibraryError "unexpected token").
    split; reflexivity.
  - exists s'. split; [exact Hrun|]. rewrite Hfiles. reflexivity.
Defined.

(** X11. A store loaded from a prior file keeps its records through an
    update: after the update the file is the rendering of the loaded
    mapping with the discovered records merged in, so a record of the
    prior file whose id was not rediscovered is written out again. *)
Theorem update_keeps_prior_records (w : World) (child_module content : string)
    (R : dict vpc_detail) (region : string) (s : state) (p : parsed)
    (id : string) (old : vpc_config) :
  files s !! tfvars_path_of child_module = Some content ->
  hcl2_loads w content = Ok p ->
  Dict.get (default [] (p_imported_vpc_configs p)) id = Some old ->
  id ∉ Dict.keys R ->
  let loaded := (default [] (p_imported_vpc_configs p),
                 default [] (p_existing_vpc_ids p)) in
  exists s',
    create_or_update_tfvars w child_module R region s = (Ok tt, s')
    /\ files s' !! tfvars_path_of child_module =
         Some (tfvars_content (merge loaded R) region)
    /\ Dict.get (merge loaded R).1 id = Some old.
Proof.
  intros Hfile Hdec Hold Hnin loaded.
  eexists. split_and!.
  - apply update_run. by apply (load_decoded w _ content p).
  - cbn [files]. apply lookup_insert_eq.
  - rewrite merge_get_other by done. done.
Qed.

Lemma update_keeps_prior_records_witness :
  exists s',
    create_or_update_tfvars (example_world [] store_ab_decoder all_succeed)
      "/srv/Child_Module" [("vpc-c", detail_c)] "us-east-1" store_ab_state
      = (Ok tt, s')
    /\ files s' !! "/srv/Child_Module/terraform.tfvars" =
         Some (tfvars_content (merge store_ab [("vpc-c", detail_c)]) "us-east-1")
    /\ Dict.get (merge store_ab [("vpc-c", detail_c)]).1 "vpc-b" = Some cfg_b.
Proof.
  apply (update_keeps_prior_records
           (example_world [] store_ab_decoder all_succeed) "/srv/Child_Module"
           (tfvars_content store_ab "eu-west-1") [("vpc-c", detail_c)]
           "us-east-1" store_ab_state
           (Parsed (Some "eu-west-1") (Some store_ab.2) (Some store_ab.1))
           "vpc-b" cfg_b).
  - reflexivity.
  - vm_compute. reflexivity.
  - reflexivity.
  - change (Dict.keys [("vpc-c", detail_c)]) with ["vpc-c"].
    rewrite list_elem_of_singleton. discriminate.
Defined.

(** ** The driver *)

Section Emits.
Context (paths : list string).
#[local] Abbreviation P := (writes_within paths).

Lemma emits_silent {A} (m : M A) :
  (forall s, exists r, m s = (r, s)) -> emits P m.
Proof.
  intros Hm s r s' Hrun. destruct (Hm s) as (r' & Heq).
  rewrite Heq in Hrun. injection Hrun as _ <-.
  exists []. by rewrite app_nil_r.
Qed.

Lemma emits_ret {A} (a : A) : emits P (mret a).
Proof. apply emits_silent. intros s. by eexists. Qed.

Lemma emits_lift {A} (r : result A) : emits P (lift_result r).
Proof. apply emits_silent. intros s. by eexists. Qed.

Lemma emits_raise {A} (e : exn) : emits P (raise (A := A) e).
Proof. apply emits_silent. intros s. by eexists. Qed.

Lemma emits_get_trace : emits P get_trace.
Proof. apply emits_silent. intros s. by eexists. Qed.

Lemma emits_emit (e : event) : P e -> emits P (emit e).
Proof.
  intros He s r s' Hrun. rewrite run_emit in Hrun. injection Hrun as _ <-.
  exists [e]. split; [done|]. by repeat constructor.
Qed.

Lemma emits_read_file (path : string) : emits P (read_file path).
Proof.
  intros s r s' Hrun. unfold read_file in Hrun.
  destruct (files s !! path); injection Hrun as _ <-.
  - exists [ReadFile path]. split; [done|]. by repeat constructor.
  - exists []. by rewrite app_nil_r.
Qed.

Lemma emits_write_file (path content : string) :
  path ∈ paths -> emits P (write_file path content).
Proof.
  intros Hin s r s' Hrun. rewrite run_write_file in Hrun.
  injection Hrun as _ <-. exists [WriteFile path content].
  split; [done|]. by repeat constructor.
Qed.

Lemma emits_bind {A B} (m : M A) (f : A -> M B) :
  emits P m -> (forall a, emits P (f a)) -> emits P (m ≫= f).
Proof.
  intros Hm Hf s r s' Hrun. rewrite run_bind in Hrun.
  destruct (m s) as [[a|e] s1] eqn:Hms.
  - destruct (Hm s _ _ Hms) as (evs1 & Ht1 & Hp1).
    destruct (Hf a s1 _ _ Hrun) as (evs2 & Ht2 & Hp2).
    exists (evs1 ++ evs2). split; [|by apply Forall_app].
    by rewrite Ht2, Ht1, app_assoc.
  - injection Hrun as _ <-. by apply (Hm s _ _ Hms).
Qed.

Lemma emits_for_each {A B} (body : B -> A -> M B) (xs : list A) :
  (forall acc x, emits P (body acc x)) ->
  forall acc, emits P (for_each body acc xs).
Proof.
  intros Hbody. induction xs as [|x xs IH]; intros acc.
  - rewrite for_each_nil. apply emits_ret.
  - rewrite for_each_cons. apply emits_bind; [apply Hbody|apply IH].
Qed.

Lemma emits_fetch (w : World) (vpc_ids : list string) (region : string) :
  emits P (fetch_vpc_details w vpc_ids region).
Proof.
  intros s r s' Hrun.
  destruct (uniform_fetch w vpc_ids region) as (r' & evs & Hevs & Heq).
  rewrite Heq in Hrun. injection Hrun as _ <-. exists evs. split; [done|].
  eapply Forall_impl; [exact Hevs|]. by intros [].
Qed.

Lemma emits_load (w : World) (path : string) :
  emits P (read_existing_tfvars w path).
Proof.
  intros s r s' Hrun.
  destruct (load_total w path s) as (st & evs & Heq & Hevs).
  rewrite Heq in Hrun. injection Hrun as _ <-. exists evs. split; [done|].
  eapply Forall_impl; [exact Hevs|]. by intros [].
Qed.

Lemma emits_run_checked (w : World) (cmd : list string) :
  emits P (run_checked w cmd).
Proof.
  unfold run_checked.
  apply emits_bind; [apply emits_get_trace|intros tr].
  apply emits_bind; [by apply emits_emit|intros _].
  apply emits_bind; [apply emits_lift|intros r].
  case_decide; [apply emits_ret|apply emits_raise].
Qed.

Lemma emits_import_vpc (w : World) (vpc_id : string) :
  emits P (import_vpc w vpc_id).
Proof.
  unfold import_vpc, run_captured, print.
  apply emits_bind; [by apply emits_emit|intros _].
  apply emits_bind.
  - apply emits_bind; [apply emits_get_trace|intros tr].
    apply emits_bind; [by apply emits_emit|intros _].
    apply emits_lift.
  - intros r. case_decide.
    + apply emits_bind; [by apply emits_emit|intros _].
      by apply emits_emit.
    + by apply emits_emit.
Qed.

Lemma emits_main_body (w : World) (child_module region : string)
    (vpc_ids : list string) :
  tfvars_path_of child_module ∈ paths ->
  emits P (main_body w child_module region vpc_ids).
Proof.
  intros Hin. unfold main_body, create_or_update_tfvars, print.
  apply emits_bind; [by apply emits_emit|intros _].
  apply emits_bind; [apply emits_fetch|intros details].
  apply emits_bind.
  { apply emits_bind; [apply emits_load|intros st].
    by apply emits_write_file. }
  intros _.
  apply emits_bind; [apply emits_read_file|intros content].
  apply emits_bind; [by apply emits_emit|intros _].
  apply emits_bind; [by apply emits_emit|intros _].
  apply emits_bind; [by apply emits_emit|intros _].
  apply emits_bind; [apply emits_run_checked|intros _].
  apply emits_bind.
  { apply emits_for_each. intros _ vpc_id. apply emits_import_vpc. }
  intros _.
  apply emits_bind; [by apply emits_emit|intros _].
  apply emits_bind; [apply emits_run_checked|intros _].
  apply emits_bind; [by apply emits_emit|intros _].
  apply emits_bind; [apply emits_run_checked|intros _].
  by apply emits_emit.
Qed.
End Emits.

Lemma main_after_scaffold (w : World) (base_path region : string)
    (vpc_ids : list string) (s : state) :
  main_with w base_path region vpc_ids s =
    match main_body w (child_of base_path) region vpc_ids
            (after_scaffold base_path s) with
    | (Ok _, s1) => (Ok 0, s1)
    | (Raise e, s1) =>
        (Ok 1, State (files s1) (trace s1 ++ [Print ("Error: " +:+ str_exn e)]))
    end.
Proof.
  destruct (main_with w base_path region vpc_ids s) as [r s'] eqn:Hrun.
  unfold main_with, create_directory_structure, create_terraform_files in Hrun.
  run_in Hrun.
  match type of Hrun with
  | context [main_body w ?c region vpc_ids ?s0] =>
      replace s0 with (after_scaffold base_path s) in Hrun
        by (unfold after_scaffold, scaffold_events, scaffold_files,
              scaffold_writes, child_of, parent_of; simpl;
            by rewrite <-!app_assoc);
      change c with (child_of base_path) in Hrun
  end.
  destruct (main_body w (child_of base_path) region vpc_ids
              (after_scaffold base_path s)) as [[[]|e] s1].
  - run_in Hrun. by rewrite <-Hrun.
  - run_in Hrun. by rewrite <-Hrun.
Qed.

(** X12. Whatever the provider, the decoder and the provisioning tool
    do, and however the run ends, the script itself writes no file
    other than the five scaffold files and the variable file: every
    file it opens for writing during a run is one of these six. *)
Theorem main_opens_six_files_only (w : World) (base_path region : string)
    (vpc_ids : list string) (s s' : state) (r : result Z) :
  main_with w base_path region vpc_ids s = (r, s') ->
  exists evs,
    trace s' = trace s ++ evs
    /\ Forall (writes_within (written_paths base_path)) evs.
Proof.
  rewrite main_after_scaffold. intros Hrun.
  assert (Forall (writes_within (written_paths base_path))
            (scaffold_events base_path)) as Hsc.
  { unfold scaffold_events, written_paths, scaffold_writes. simpl.
    rewrite !Forall_cons. simpl. rewrite !elem_of_cons.
    split_and!; try tauto. constructor. }
  assert (tfvars_path_of (child_of base_path) ∈ written_paths base_path) as Hin.
  { unfold written_paths. apply elem_of_app. right. by left. }
  destruct (main_body w (child_of base_path) region vpc_ids
              (after_scaffold base_path s)) as [[[]|e] s1] eqn:Hb;
    destruct (emits_main_body (written_paths base_path) w _ region vpc_ids
                Hin _ _ _ Hb) as (evs & Htr & Hevs);
    injection Hrun as _ <-; unfold after_scaffold in Htr; cbn [trace] in *.
  - exists (scaffold_events base_path ++ evs). split.
    + by rewrite Htr, <-!app_assoc.
    + by apply Forall_app.
  - exists (scaffold_events base_path ++ evs ++ [Print ("Error: " +:+ str_exn e)]).
    split.
    + by rewrite Htr, <-!app_assoc.
    + rewrite !Forall_app. split_and!; [done|done|]. by repeat constructor.
Qed.

Lemma main_opens_six_files_only_witness :
  exists evs,
    trace (main_with scenario_world "/srv" "us-east-1" ["vpc-1"; "vpc-2"]
             initial_state).2 = evs
    /\ Forall (writes_within (written_paths "/srv")) evs
    /\ Run apply_cmd ∈ evs.
Proof.
  destruct (main_opens_six_files_only scenario_world "/srv" "us-east-1"
              ["vpc-1"; "vpc-2"] initial_state
              (main_with scenario_world "/srv" "us-east-1" ["vpc-1"; "vpc-2"]
                 initial_state).2
              (main_with scenario_world "/srv" "us-east-1" ["vpc-1"; "vpc-2"]
                 initial_state).1)
    as (evs & Htr & Hevs).
  - by destruct (main_with _ _ _ _ _).
  - exists evs. split_and!; [exact Htr|exact Hevs|].
    simpl in Htr. rewrite <-Htr.
    apply list_elem_of_lookup. exists 29%nat. vm_compute. reflexivity.
Defined.

Lemma ends_with_emit (e : event) : ends_with e (emit e).
Proof.
  intros s a s' Hrun. rewrite run_emit in Hrun. injection Hrun as _ <-.
  cbn [trace]. apply last_snoc.
Qed.

Lemma ends_with_bind {A B} (e : event) (m : M A) (f : A -> M B) :
  (forall a, ends_with e (f a)) -> ends_with e (m ≫= f).
Proof.
  intros Hf s b s' Hrun. rewrite run_bind in Hrun.
  destruct (m s) as [[a|e'] s1]; [|discriminate Hrun].
  by apply (Hf a s1 b s').
Qed.

Lemma ends_with_main_body (w : World) (child_module region : string)
    (vpc_ids : list string) :
  ends_with (Print "VPC imports completed successfully!")
    (main_body w child_module region vpc_ids).
Proof.
  unfold main_body, print.
  do 13 (apply ends_with_bind; intros ?).
  apply ends_with_emit.
Qed.

(** X13. Once the scaffold is written, nothing a run meets escapes as
    an exception.  If the [try] block completes, the exit code is 0 and
    the last thing the run did was to print
    [VPC imports completed successfully!].  If the block raises an
    exception, the exit code is 1 and the last thing the run did was to
    print [Error: ] followed by the message of that very exception. *)
Theorem main_exit_code (w : World) (base_path region : string)
    (vpc_ids : list string) (s : state) :
  match main_body w (child_of base_path) region vpc_ids
          (after_scaffold base_path s) with
  | (Ok _, s1) =>
      main_with w base_path region vpc_ids s = (Ok 0, s1)
      /\ last (trace s1) = Some (Print "VPC imports completed successfully!")
  | (Raise e, s1) =>
      main_with w base_path region vpc_ids s =
        (Ok 1, State (files s1) (trace s1 ++ [Print ("Error: " +:+ str_exn e)]))
  end.
Proof.
  rewrite main_after_scaffold.
  pose proof (ends_with_main_body w (child_of base_path) region vpc_ids
                (after_scaffold base_path s)) as Hend.
  destruct (main_body w (child_of base_path) region vpc_ids
              (after_scaffold base_path s)) as [[[]|e] s1]; [|done].
  split; [done|]. by apply (Hend tt s1).
Qed.

(** The steps of [main] up to the call of [terraform init]. *)
Ltac run_to_init w Hfetch' Hrun st evs Hload Hevs :=
  unfold main_with, create_directory_structure, create_terraform_files,
    main_body in Hrun;
  run_in Hrun; rewrite Hfetch' in Hrun; run_in Hrun;
  match type of Hrun with
  | context [create_or_update_tfvars _ ?c _ _ ?s0] =>
      destruct (load_total w (tfvars_path_of c) s0) as (st & evs & Hload & Hevs);
      rewrite (update_run _ _ _ _ _ _ _ Hload) in Hrun
  end;
  run_in Hrun;
  rewrite (run_read_file_Some _ _ _ (lookup_insert_eq _ _ _)) in Hrun;
  run_in Hrun.

Lemma before_init_no_run (base_path line content : string)
    (api evs : list event) :
  Forall is_api_call api ->
  Forall (fun e => match e with ReadFile _ | Print _ => True | _ => False end) evs ->
  Forall (fun e => ~ is_run e)
    (scaffold_events base_path ++ Print line :: api ++ evs
     ++ [WriteFile (tfvars_path_of (child_of base_path)) content;
         ReadFile (tfvars_path_of (child_of base_path));
         Print ("terraform.tfvars content:" +:+ nl +:+ content);
         Chdir (child_of base_path)]).
Proof.
  intros Hapi Hevs. unfold scaffold_events. simpl.
  rewrite !Forall_cons, !Forall_app. simpl. split_and!; try tauto.
  - eapply Forall_impl; [exact Hapi|]. intros []; simpl; tauto.
  - eapply Forall_impl; [exact Hevs|]. intros []; simpl; tauto.
  - rewrite !Forall_cons. simpl. split_and!; try tauto. constructor.
Qed.

(** X14. When discovery succeeds and [terraform init] exits non-zero,
    the run prints the error and ends with exit code 1; no import, plan
    or apply is run; by then the variable file has been written with the
    rendering of the merged store. *)
Theorem init_failure_is_fatal (w : World) (base_path region : string)
    (vpc_ids : list string) (s : state) (details : dict vpc_detail)
    (ci : completed) :
  (fetch_vpc_details w vpc_ids region s).1 = Ok details ->
  (forall tr, subprocess_run w tr init_cmd = Ok ci) ->
  returncode ci <> 0 ->
  exists pre st s',
    main_with w base_path region vpc_ids s = (Ok 1, s')
    /\ trace s' = trace s ++ pre
         ++ [Print "Initializing Terraform..."; Run init_cmd;
             Print ("Error: " +:+ called_process_error w init_cmd (returncode ci))]
    /\ Forall (fun e => ~ is_run e) pre
    /\ (forall tr,
          (read_existing_tfvars w (tfvars_path_of (child_of base_path))
             (State (scaffold_files base_path (files s)) tr)).1 = Ok st)
    /\ files s' =
         <[tfvars_path_of (child_of base_path) :=
             tfvars_content (merge st details) region]>
           (scaffold_files base_path (files s)).
Proof.
  intros Hfetch Hinit Hrc.
  destruct (fetch_anywhere _ _ _ _ _ Hfetch) as (api & Hapi & Hfetch').
  destruct (main_with w base_path region vpc_ids s) as [r s'] eqn:Hrun.
  run_to_init w Hfetch' Hrun st evs Hload Hevs.
  match type of Hrun with
  | context [run_checked w init_cmd ?s0] =>
      rewrite (run_checked_fail w init_cmd s0 ci (Hinit _) Hrc) in Hrun
  end.
  run_in Hrun. injection Hrun as <- <-.
  exists (scaffold_events base_path
       ++ Print ("Fetching details for VPCs: " +:+ join ", " vpc_ids +:+ "...")
       :: api ++ evs
       ++ [WriteFile (tfvars_path_of (child_of base_path))
             (tfvars_content (merge st details) region);
           ReadFile (tfvars_path_of (child_of base_path));
           Print ("terraform.tfvars content:" +:+ nl +:+
                  tfvars_content (merge st details) region);
           Chdir (child_of base_path)]), st.
  eexists. split_and!.
  - reflexivity.
  - cbn [trace]. unfold scaffold_events, scaffold_writes, child_of, parent_of.
    simpl. rewrite <-!app_assoc. simpl. reflexivity.
  - apply (before_init_no_run base_path _ _ api evs Hapi Hevs).
  - intros tr. pose proof (f_equal fst Hload) as Hl. cbn [fst] in Hl.
    rewrite <-Hl. apply load_depends_on_files.
  - reflexivity.
Qed.

Lemma init_failure_is_fatal_witness :
  exists pre s',
    main_with (example_world [example_vpc "vpc-1"] no_decoder init_fails)
      "/srv" "us-east-1" ["vpc-1"] initial_state = (Ok 1, s')
    /\ trace s' = pre
         ++ [Print "Initializing Terraform..."; Run init_cmd;
             Print "Error: non-zero exit status"]
    /\ Forall (fun e => ~ is_run e) pre.
Proof.
  destruct (init_failure_is_fatal
              (example_world [example_vpc "vpc-1"] no_decoder init_fails)
              "/srv" "us-east-1" ["vpc-1"] initial_state
              [("vpc-1", ("10.0.0.0/16", [("Name", "vpc-1")], true, true))]
              (Completed 1 "" "Error: Failed to install provider"))
    as (pre & st & s' & Hrun & Htrace & Hpre & _).
  - reflexivity.
  - intros tr. reflexivity.
  - simpl. discriminate.
  - exists pre, s'. split_and!; [exact Hrun|exact Htrace|exact Hpre].
Defined.

Lemma import_vpc_raises (w : World) (vpc_id : string) (s : state) (e : exn) :
  (forall tr, subprocess_run w tr (import_cmd vpc_id) = Raise e) ->
  import_vpc w vpc_id s =
    (Raise e,
     State (files s)
       (trace s ++ [Print ("Importing VPC " +:+ vpc_id +:+ "...");
                    Run (import_cmd vpc_id)])).
Proof.
  intros Hrun. unfold import_vpc, run_captured. run. rewrite Hrun.
  by rewrite <-!app_assoc.
Qed.

(** X15. Only a non-zero exit of an import is tolerated.  When an
    import command cannot be run at all, so that the call raises, the
    run stops there: the ids after it are not imported, plan and apply
    are not run, the error is printed and the exit code is 1. *)
Theorem import_exception_aborts (w : World) (base_path region : string)
    (earlier rest : list string) (bad : string) (s : state)
    (details : dict vpc_detail) (outcome : string -> completed) (e : exn) :
  (fetch_vpc_details w (earlier ++ bad :: rest) region s).1 = Ok details ->
  (forall tr, exists c, subprocess_run w tr init_cmd = Ok c /\ returncode c = 0) ->
  (forall tr id, id ∈ earlier ->
     subprocess_run w tr (import_cmd id) = Ok (outcome id)) ->
  (forall tr, subprocess_run w tr (import_cmd bad) = Raise e) ->
  exists pre s',
    main_with w base_path region (earlier ++ bad :: rest) s = (Ok 1, s')
    /\ trace s' = trace s ++ pre
         ++ [Print "Initializing Terraform..."; Run init_cmd]
         ++ (earlier ≫= fun id => import_events (outcome id) id)
         ++ [Print ("Importing VPC " +:+ bad +:+ "..."); Run (import_cmd bad);
             Print ("Error: " +:+ str_exn e)]
    /\ Forall (fun e => ~ is_run e) pre.
Proof.
  intros Hfetch Hinit Hearlier Hbad.
  destruct (fetch_anywhere _ _ _ _ _ Hfetch) as (api & Hapi & Hfetch').
  destruct (main_with w base_path region (earlier ++ bad :: rest) s)
    as [r s'] eqn:Hrun.
  run_to_init w Hfetch' Hrun st evs Hload Hevs.
  match type of Hrun with
  | context [run_checked w init_cmd ?s0] =>
      destruct (Hinit (trace s0)) as (ci & Hci & Hrc);
      rewrite (run_checked_ok w init_cmd s0 ci Hci Hrc) in Hrun
  end.
  run_in Hrun.
  rewrite for_each_app, run_bind in Hrun.
  rewrite (import_loop_run w outcome earlier Hearlier) in Hrun.
  rewrite for_each_cons, run_bind in Hrun.
  rewrite (import_vpc_raises w bad _ e Hbad) in Hrun.
  run_in Hrun. injection Hrun as <- <-.
  exists (scaffold_events base_path
       ++ Print ("Fetching details for VPCs: " +:+ join ", " (earlier ++ bad :: rest) +:+ "...")
       :: api ++ evs
       ++ [WriteFile (tfvars_path_of (child_of base_path))
             (tfvars_content (merge st details) region);
           ReadFile (tfvars_path_of (child_of base_path));
           Print ("terraform.tfvars content:" +:+ nl +:+
                  tfvars_content (merge st details) region);
           Chdir (child_of base_path)]).
  eexists. split_and!.
  - reflexivity.
  - cbn [trace]. unfold scaffold_events, scaffold_writes, child_of, parent_of.
    simpl. rewrite <-!app_assoc. simpl. reflexivity.
  - apply (before_init_no_run base_path _ _ api evs Hapi Hevs).
Qed.

Lemma import_exception_aborts_witness :
  exists pre s',
    main_with (example_world [example_vpc "vpc-1"; example_vpc "vpc-2";
                              example_vpc "vpc-3"]
                 no_decoder second_import_raises)
      "/srv" "us-east-1" ["vpc-1"; "vpc-2"; "vpc-3"] initial_state = (Ok 1, s')
    /\ trace s' = pre
         ++ [Print "Initializing Terraform..."; Run init_cmd;
             Print "Importing VPC vpc-1..."; Run (import_cmd "vpc-1");
             Print "Import successful for vpc-1!";
             Print "Importing VPC vpc-2..."; Run (import_cmd "vpc-2");
             Print "Error: [Errno 12] Cannot allocate memory"].
Proof.
  destruct (import_exception_aborts
              (example_world [example_vpc "vpc-1"; example_vpc "vpc-2";
                              example_vpc "vpc-3"]
                 no_decoder second_import_raises)
              "/srv" "us-east-1" ["vpc-1"] ["vpc-3"] "vpc-2" initial_state
              [("vpc-1", ("10.0.0.0/16", [("Name", "vpc-1")], true, true));
               ("vpc-2", ("10.0.0.0/16", [("Name", "vpc-2")], true, true));
               ("vpc-3", ("10.0.0.0/16", [("Name", "vpc-3")], true, true))]
              (fun _ => Completed 0 "" "")
              (LibraryError "[Errno 12] Cannot allocate memory"))
    as (pre & s' & Hrun & Htrace & _).
  - reflexivity.
  - intros tr. exists (Completed 0 "" ""). split; reflexivity.
  - intros tr id Hid. apply list_elem_of_singleton in Hid as ->. reflexivity.
  - intros tr. reflexivity.
  - exists pre, s'. split; [exact Hrun|]. rewrite Htrace. reflexivity.
Defined.
